(** * Caption Generator API: the caption assembly core of [main.py]

    A shallow embedding of the hashtag selector ([suggest_hashtags]), the
    caption assembler ([build_caption]) and the generation endpoint
    ([generate_captions], with the [GenerateRequest] validation in front of
    it), followed by the properties the specification states about them. *)

From Stdlib Require Import String Ascii NArith ZArith List Lia.
From stdpp Require Import base decidable option list countable gmap.

Local Open Scope N_scope.

(** ** Python strings

    A Python [str] is a sequence of Unicode code points. *)

Definition codepoint := N.
Abbreviation pystr := (list codepoint).

(** String literals of the source are written as Rocq string literals, which
    hold the UTF-8 bytes of the text; [utf8_decode] turns them into code
    points. *)
Fixpoint utf8_decode (bs : list N) : pystr :=
  match bs with
  | [] => []
  | b0 :: r0 =>
      if b0 <? 128 then b0 :: utf8_decode r0
      else if b0 <? 224 then
        match r0 with
        | b1 :: r1 => ((b0 - 192) * 64 + (b1 - 128)) :: utf8_decode r1
        | _ => []
        end
      else if b0 <? 240 then
        match r0 with
        | b1 :: b2 :: r2 =>
            ((b0 - 224) * 4096 + (b1 - 128) * 64 + (b2 - 128)) :: utf8_decode r2
        | _ => []
        end
      else
        match r0 with
        | b1 :: b2 :: b3 :: r3 =>
            ((b0 - 240) * 262144 + (b1 - 128) * 4096 + (b2 - 128) * 64 + (b3 - 128))
              :: utf8_decode r3
        | _ => []
        end
  end.

Definition u (s : string) : pystr :=
  utf8_decode (map (fun b => N_of_ascii (ascii_of_byte b)) (list_byte_of_string s)).
Arguments u : simpl never.

(** [Py_UNICODE_ISSPACE]: the code points [str.strip] and [str.split] treat
    as whitespace. *)
Definition is_space (c : codepoint) : bool :=
  (9 <=? c) && (c <=? 13) || (28 <=? c) && (c <=? 32)
  || (c =? 133) || (c =? 160) || (c =? 5760)
  || (8192 <=? c) && (c <=? 8202)
  || (c =? 8232) || (c =? 8233) || (c =? 8239) || (c =? 8287) || (c =? 12288).

Fixpoint lstrip (s : pystr) : pystr :=
  match s with
  | [] => []
  | c :: s' => if is_space c then lstrip s' else s
  end.

Definition rstrip (s : pystr) : pystr := rev (lstrip (rev s)).

(** [s.strip()] *)
Definition strip (s : pystr) : pystr := rstrip (lstrip s).

(** [s.split()]: the maximal runs of non-whitespace code points, in order.
    [cur] is the token being read. *)
Fixpoint split_from (cur : pystr) (s : pystr) : list pystr :=
  match s with
  | [] => match cur with [] => [] | _ => [cur] end
  | c :: s' =>
      if is_space c then
        match cur with
        | [] => split_from [] s'
        | _ => cur :: split_from [] s'
        end
      else split_from (cur ++ [c]) s'
  end.

Definition split (s : pystr) : list pystr := split_from [] s.

(** [sep.join(parts)] *)
Fixpoint join (sep : pystr) (parts : list pystr) : pystr :=
  match parts with
  | [] => []
  | [p] => p
  | p :: rest => p ++ sep ++ join sep rest
  end.

(** The Unicode character database of the Python runtime, as far as the
    program consults it: the alphabetic property behind [str.isalpha] and
    the lowercase mapping [str.lower] (a function of the whole string: the
    mapping of a capital sigma depends on its position). *)
Class UnicodeData := {
  cp_isalpha : codepoint -> bool;
  str_lower : pystr -> pystr
}.

(** [w.isalpha()]: at least one code point, all of them alphabetic. *)
Definition isalpha `{UnicodeData} (w : pystr) : bool :=
  match w with
  | [] => false
  | _ => forallb cp_isalpha w
  end.

(** The database restricted to ASCII: it agrees with the runtime on every
    string of ASCII code points, and is what the concrete examples below are
    evaluated with. *)
Definition ascii_isalpha (c : codepoint) : bool :=
  (65 <=? c) && (c <=? 90) || (97 <=? c) && (c <=? 122).

Definition ascii_lower_cp (c : codepoint) : codepoint :=
  if (65 <=? c) && (c <=? 90) then c + 32 else c.

Definition ascii_data : UnicodeData :=
  {| cp_isalpha := ascii_isalpha; str_lower := map ascii_lower_cp |}.

(** ** The built-in [set], as far as the program uses it: [set()], [add]
    and the membership test [in]. Its internal order depends on the hash
    seed of the process; the interface fixes membership only. *)
Class PySet (S : Type) := {
  set_new : S;
  set_add : pystr -> S -> S;
  set_contains : pystr -> S -> bool
}.

(** What membership means, whatever the representation. *)
Record PySetLaws (S : Type) `{PySet S} : Prop := {
  contains_new : forall x, set_contains x set_new = false;
  contains_add : forall x y s,
    set_contains x (set_add y s) = bool_decide (x = y) || set_contains x s
}.

#[export] Instance gset_PySet : PySet (gset pystr) := {|
  set_new := ∅;
  set_add y s := {[ y ]} ∪ s;
  set_contains x s := bool_decide (x ∈ s)
|}.

(** A second implementation, which keeps the members in insertion order. *)
Definition list_PySet : PySet (list pystr) := {|
  set_new := [];
  set_add y s := y :: s;
  set_contains x s := bool_decide (x ∈ s)
|}.

(** ** The [random] module: a source of draws and how many were taken. *)
Record Rng := { draws : nat -> nat; taken : nat }.

Definition randbelow (n : nat) (r : Rng) : nat * Rng :=
  ((draws r (taken r) mod n)%nat, {| draws := draws r; taken := S (taken r) |}).

(** ** Lookup tables *)

Record ToneProfile := { prefixes : list pystr; emojis : list pystr }.

Definition tone_friendly : ToneProfile := Eval vm_compute in
  {| prefixes := [u "Hey there!"; u "Fun fact:"; u "Guess what?"; u "PSA:"];
     emojis := [u "😊"; u "✨"; u "🎉"; u "🚀"; u "🙌"] |}.

Definition TONE_STYLES : list (pystr * ToneProfile) := Eval vm_compute in
  [ (u "friendly", tone_friendly);
    (u "professional",
      {| prefixes := [u "Pro tip:"; u "Insight:"; u "Quick update:"; u "Heads up:"];
         emojis := [u "💼"; u "📈"; u "🧠"; u "✅"] |});
    (u "witty",
      {| prefixes := [u "Plot twist:"; u "Hot take:"; u "Low-key obsessed with:";
                      u "Unpopular opinion:"];
         emojis := [u "😏"; u "🔥"; u "🧩"; u "😉"] |});
    (u "bold",
      {| prefixes := [u "Say it louder:"; u "No fluff:"; u "Real talk:";
                      u "Let’s be honest:"];
         emojis := [u "⚡"; u "🔥"; u "💥"; u "🏆"] |});
    (u "luxury",
      {| prefixes := [u "Elevate:"; u "Curated:"; u "Crafted:"; u "Exquisite:"];
         emojis := [u "✨"; u "💫"; u "💎"; u "🖤"] |});
    (u "educational",
      {| prefixes := [u "Here’s the breakdown:"; u "Step-by-step:";
                      u "3 things to know:"; u "Learn this:"];
         emojis := [u "📚"; u "📝"; u "💡"; u "🔍"] |});
    (u "casual",
      {| prefixes := [u "Okay but listen:"; u "So..."; u "Not me doing:"; u "Mood:"];
         emojis := [u "😌"; u "🤙"; u "👌"; u "✨"] |}) ].

Definition PLATFORM_HASHTAGS : list (pystr * list pystr) := Eval vm_compute in
  [ (u "instagram", [u "#instadaily"; u "#trending"; u "#reels"; u "#explore"; u "#viral"]);
    (u "tiktok", [u "#fyp"; u "#foryou"; u "#tiktok"; u "#viral"; u "#trend"]);
    (u "twitter", [u "#NowPlaying"; u "#ICYMI"; u "#Thread"; u "#Vibes"]);
    (u "linkedin", [u "#leadership"; u "#growth"; u "#careers"; u "#marketing"; u "#business"]);
    (u "youtube", [u "#Shorts"; u "#Creator"; u "#HowTo"; u "#BehindTheScenes"]) ].

Definition GENERIC_HASHTAGS : list pystr := Eval vm_compute in
  [u "#life"; u "#creative"; u "#goals"; u "#inspo"; u "#community"; u "#content"].

(** [d.get(key)] on a dict given by its items: [None] for a missing key. *)
Fixpoint dict_lookup {V} (key : pystr) (d : list (pystr * V)) : option V :=
  match d with
  | [] => None
  | (k, v) :: d' => if decide (key = k) then Some v else dict_lookup key d'
  end.

(** [d.get(key, default)] *)
Definition dict_get {V} (key : pystr) (d : list (pystr * V)) (dflt : V) : V :=
  default dflt (dict_lookup key d).

(** ** Data of the generation endpoint *)

(** The JSON body of [POST /api/generate]: a field is [None] when the body
    omits it. *)
Record RequestBody := {
  body_topic : option pystr;
  body_tone : option pystr;
  body_platform : option pystr;
  body_length : option pystr;
  body_include_emojis : option bool;
  body_include_hashtags : option bool;
  body_variants : option Z
}.

Record GenerateRequest := {
  req_topic : pystr;
  req_tone : pystr;
  req_platform : pystr;
  req_length : pystr;
  req_include_emojis : bool;
  req_include_hashtags : bool;
  req_variants : Z
}.

Record GenerateResponse := {
  resp_variants : list pystr;
  saved_id : option pystr
}.

(** The record handed to [create_document]. *)
Record Document := {
  doc_topic : pystr;
  doc_tone : pystr;
  doc_platform : pystr;
  doc_length : pystr;
  doc_include_emojis : bool;
  doc_include_hashtags : bool;
  doc_variants : list pystr;
  doc_favorite : bool;
  doc_generated_at : Z
}.

Inductive exn :=
  | HTTPException (status_code : Z) (detail : pystr)
  | Exception (message : pystr).

Inductive result (A : Type) :=
  | Return (a : A)
  | Raise (e : exn).
Arguments Return {A} a.
Arguments Raise {A} e.

(** The collaborators of the endpoint that live outside [main.py]:
    [create_document] of the [database] module, which returns the new
    identifier or raises, and the clock read by [datetime.utcnow()]. *)
Record Environment := {
  create_document : pystr -> Document -> result pystr;
  utcnow : Z
}.

(** What the client of [POST /api/generate] receives. *)
Inductive HttpResponse :=
  | Http200 (body : GenerateResponse)
  | HttpError (status_code : Z) (detail : option pystr).

(** ** Hashtag selector *)

Definition NEWLINE : codepoint := 10.

Section Generator.
Context {U : UnicodeData}.

(** [[f"#{w.lower()}" for w in topic.split() if w.isalpha()][:3]] *)
Definition topic_tags (topic : pystr) : list pystr :=
  take 3 (map (fun w => u "#" ++ str_lower w) (List.filter isalpha (split topic))).

(** [PLATFORM_HASHTAGS.get(platform, [])[:3]] *)
Definition base_tags (platform : pystr) : list pystr :=
  take 3 (dict_get platform PLATFORM_HASHTAGS []).

(** [GENERIC_HASHTAGS[:3 if length == "short" else 5]] *)
Definition generic_tags (length : pystr) : list pystr :=
  take (if decide (length = u "short") then 3 else 5)%nat GENERIC_HASHTAGS.

(** [4 if length == "short" else 7 if length == "medium" else 10] *)
Definition tag_limit (length : pystr) : nat :=
  if decide (length = u "short") then 4%nat
  else if decide (length = u "medium") then 7%nat
  else 10%nat.

(** The [for t in all_tags] loop, with the state it updates: the list
    [unique] and the set [seen]. The [break] test follows the membership
    test in every iteration. *)
Fixpoint unique_loop {S} `{PySet S} (limit : nat) (all_tags : list pystr)
    (unique : list pystr) (seen : S) : list pystr :=
  match all_tags with
  | [] => unique
  | t :: rest =>
      let '(unique', seen') :=
        if set_contains t seen then (unique, seen)
        else (unique ++ [t], set_add t seen) in
      if (limit <=? List.length unique')%nat then unique'
      else unique_loop limit rest unique' seen'
  end.

Definition suggest_hashtags {S} `{PySet S} (topic platform : pystr)
    (include_hashtags : bool) (length : pystr) : pystr :=
  if negb include_hashtags then []
  else
    let all_tags := topic_tags topic ++ base_tags platform ++ generic_tags length in
    join (u " ") (unique_loop (S := S) (tag_limit length) all_tags [] set_new).

(** ** Caption assembler *)

(** [random.choice(arr) if arr else ""] *)
Definition choose (arr : list pystr) (r : Rng) : pystr * Rng :=
  match arr with
  | [] => ([], r)
  | _ => let '(i, r') := randbelow (List.length arr) r in (nth i arr [], r')
  end.

(** The length-dependent sentence of [build_caption]. *)
Definition core_text (topic length : pystr) : pystr :=
  if decide (length = u "short") then topic ++ u " — let’s go!"
  else if decide (length = u "long") then
    topic ++ u ". Here’s why it matters and how you can make it work today. Save this for later!"
  else topic ++ u " done right. Screenshot this if you needed the nudge.".

(** [TONE_STYLES.get(tone, TONE_STYLES["friendly"])]; the dict found is
    never empty, so the prefix is always drawn from it. *)
Definition build_caption (topic tone platform length : pystr)
    (include_emojis include_hashtags : bool) (r : Rng) : pystr * Rng :=
  let tone_conf := dict_get tone TONE_STYLES tone_friendly in
  let '(prefix, r') := choose (prefixes tone_conf) r in
  let emojis := if include_emojis then emojis tone_conf else [] in
  let core := core_text topic length in
  let emoji_str :=
    match emojis with
    | [] => []
    | _ => u " " ++ join (u " ") (take 2 emojis)
    end in
  let ht := suggest_hashtags (S := gset pystr) topic platform include_hashtags length in
  let ht_str :=
    match ht with
    | [] => []
    | _ => [NEWLINE; NEWLINE] ++ ht
    end in
  (strip (prefix ++ u " " ++ core ++ emoji_str ++ ht_str), r').

(** ** Generation endpoint *)

(** Construction of [GenerateRequest] from the body: [topic] is required
    with [min_length=3]; the other fields have defaults; [variants] has
    [ge=1, le=10]. [None] is a validation error. *)
Definition parse_request (b : RequestBody) : option GenerateRequest :=
  match body_topic b with
  | None => None
  | Some t =>
      let n := default 3%Z (body_variants b) in
      if (3 <=? List.length t)%nat && (1 <=? n)%Z && (n <=? 10)%Z then
        Some {| req_topic := t;
                req_tone := default (u "friendly") (body_tone b);
                req_platform := default (u "instagram") (body_platform b);
                req_length := default (u "medium") (body_length b);
                req_include_emojis := default true (body_include_emojis b);
                req_include_hashtags := default true (body_include_hashtags b);
                req_variants := n |}
      else None
  end.

(** The [for _ in range(payload.variants)] loop; [variants] is the list
    being appended to. *)
Fixpoint variants_loop (n : nat) (topic : pystr) (payload : GenerateRequest)
    (variants : list pystr) (r : Rng) : list pystr * Rng :=
  match n with
  | O => (variants, r)
  | S n' =>
      let '(cap, r') :=
        build_caption topic (str_lower (req_tone payload)) (str_lower (req_platform payload))
          (str_lower (req_length payload)) (req_include_emojis payload)
          (req_include_hashtags payload) r in
      variants_loop n' topic payload (variants ++ [cap]) r'
  end.

(** The body of the outer [try] of [generate_captions]. *)
Definition generate_body (env : Environment) (payload : GenerateRequest) (r : Rng)
    : result GenerateResponse * Rng :=
  let topic := strip (req_topic payload) in
  match topic with
  | [] => (Raise (HTTPException 400 (u "Topic is required")), r)
  | _ =>
      let '(variants, r') :=
        variants_loop (Z.to_nat (req_variants payload)) topic payload [] r in
      let doc :=
        {| doc_topic := topic;
           doc_tone := req_tone payload;
           doc_platform := req_platform payload;
           doc_length := req_length payload;
           doc_include_emojis := req_include_emojis payload;
           doc_include_hashtags := req_include_hashtags payload;
           doc_variants := variants;
           doc_favorite := false;
           doc_generated_at := utcnow env |} in
      let saved_id :=
        match create_document env (u "caption") doc with
        | Return id => Some id
        | Raise _ => None
        end in
      (Return {| resp_variants := variants; saved_id := saved_id |}, r')
  end.

(** [generate_captions]: an [HTTPException] passes through, any other
    exception becomes status 500. *)
Definition generate_captions (env : Environment) (payload : GenerateRequest) (r : Rng)
    : result GenerateResponse * Rng :=
  match generate_body env payload r with
  | (Raise (Exception e), r') => (Raise (HTTPException 500 e), r')
  | other => other
  end.

(** The route: the framework builds the [GenerateRequest] (status 422 when
    validation fails, the handler is not called), calls the handler and
    turns an [HTTPException] into its status code. *)
Definition post_generate (env : Environment) (b : RequestBody) (r : Rng)
    : HttpResponse * Rng :=
  match parse_request b with
  | None => (HttpError 422 None, r)
  | Some payload =>
      match generate_captions env payload r with
      | (Return resp, r') => (Http200 resp, r')
      | (Raise (HTTPException code detail), r') => (HttpError code (Some detail), r')
      | (Raise (Exception e), r') => (HttpError 500 None, r')
      end
  end.

End Generator.

(** ** The selection and the rendering as the specification words them *)

Definition HASH : codepoint := 35.
Definition APOSTROPHE : codepoint := 39.

(** Deduplication that keeps the first occurrence of every element. *)
Fixpoint dedup_first (l : list pystr) : list pystr :=
  match l with
  | [] => []
  | x :: rest => x :: filter (fun y => y ≠ x) (dedup_first rest)
  end.

(** The maximum tag count of the three length categories. *)
Definition spec_max_tags (length : pystr) : option nat :=
  if decide (length = u "short") then Some 4%nat
  else if decide (length = u "medium") then Some 7%nat
  else if decide (length = u "long") then Some 10%nat
  else None.

Section Specification.
Context {U : UnicodeData}.

(** Steps 1 to 5 of the hashtag selector: the topic-derived tags, the first
    three platform tags and the generic tags, deduplicated and cut to [cap]
    tags. *)
Definition spec_selected_tags (topic platform length : pystr) (cap : nat) : list pystr :=
  let topic_derived :=
    take 3 (map (fun w => HASH :: str_lower w) (List.filter isalpha (split topic))) in
  let platform_tags := take 3 (default [] (dict_lookup platform PLATFORM_HASHTAGS)) in
  let generic :=
    if decide (length = u "short") then take 3 GENERIC_HASHTAGS
    else take 5 GENERIC_HASHTAGS in
  take cap (dedup_first (topic_derived ++ platform_tags ++ generic)).

(** The tone profile a tone name resolves to. *)
Definition resolved_profile (tone : pystr) : ToneProfile :=
  match dict_lookup tone TONE_STYLES with
  | Some profile => profile
  | None => tone_friendly
  end.

(** A leading space and up to two space-joined glyphs, or nothing. *)
Definition emoji_suffix (tone : pystr) (include_emojis : bool) : pystr :=
  if include_emojis then
    match emojis (resolved_profile tone) with
    | [] => []
    | glyphs => u " " ++ join (u " ") (take 2 glyphs)
    end
  else [].

(** Two newlines and the selector's output, or nothing when it is empty. *)
Definition hashtag_block (topic platform : pystr) (include_hashtags : bool)
    (length : pystr) : pystr :=
  match suggest_hashtags (S := gset pystr) topic platform include_hashtags length with
  | [] => []
  | ht => [NEWLINE; NEWLINE] ++ ht
  end.

(** The state of the random source after [n] more draws. *)
Definition advance (n : nat) (r : Rng) : Rng :=
  {| draws := draws r; taken := (n + taken r)%nat |}.

(** The prefix phrase the random source picks for [tone] in state [r]. *)
Definition drawn_prefix (tone : pystr) (r : Rng) : pystr :=
  let phrases := prefixes (resolved_profile tone) in
  nth (draws r (taken r) mod List.length phrases)%nat phrases [].

(** The arguments the endpoint passes to the assembler for request
    [payload], and the caption it gets on random state [r]. *)
Definition caption_for (payload : GenerateRequest) (r : Rng) : pystr :=
  fst (build_caption (strip (req_topic payload)) (str_lower (req_tone payload))
         (str_lower (req_platform payload)) (str_lower (req_length payload))
         (req_include_emojis payload) (req_include_hashtags payload) r).

(** The variants of a request, in generation order: one caption per draw. *)
Definition generated_variants (payload : GenerateRequest) (r : Rng) : list pystr :=
  map (fun i => caption_for payload (advance i r))
    (seq 0 (Z.to_nat (req_variants payload))).

(** The generation record of a request and its variants. *)
Definition record_of (env : Environment) (payload : GenerateRequest)
    (variants : list pystr) : Document :=
  {| doc_topic := strip (req_topic payload);
     doc_tone := req_tone payload;
     doc_platform := req_platform payload;
     doc_length := req_length payload;
     doc_include_emojis := req_include_emojis payload;
     doc_include_hashtags := req_include_hashtags payload;
     doc_variants := variants;
     doc_favorite := false;
     doc_generated_at := utcnow env |}.

End Specification.

(** ** Auxiliary predicates *)

(** The set [seen] holds exactly the strings of [members]. *)
Definition represents {S} `{PySet S} (seen : S) (members : list pystr) : Prop :=
  forall x, set_contains x seen = bool_decide (x ∈ members).

(** The first, respectively last, code point exists and is not whitespace:
    [strip] leaves such an end of a string alone. *)
Definition starts_solid (s : pystr) : bool :=
  match s with
  | c :: _ => negb (is_space c)
  | [] => false
  end.

Definition ends_solid (s : pystr) : bool :=
  match last s with
  | Some c => negb (is_space c)
  | None => false
  end.

Definition has_hash (s : pystr) : bool := bool_decide (HASH ∈ s).

(** What the proofs need of a tone profile: some prefix to draw, every
    prefix free of ['#'] and starting and ending in a visible character,
    and the same for the glyphs. *)
Definition profile_ok (p : ToneProfile) : bool :=
  match prefixes p with [] => false | _ => true end
  && forallb (fun s => starts_solid s && ends_solid s && negb (has_hash s)) (prefixes p)
  && forallb (fun s => ends_solid s && negb (has_hash s)) (emojis p).

(** ** Concrete inputs for the examples *)

Definition rng_zero : Rng := {| draws := fun _ => 0%nat; taken := 0 |}.

Definition env_db_down : Environment :=
  {| create_document := fun _ _ => Raise (Exception (u "database unavailable"));
     utcnow := 0 |}.

Definition env_db_ok : Environment :=
  {| create_document := fun _ _ => Return (u "65f0c1");
     utcnow := 0 |}.

Definition body_of_topic (t : pystr) : RequestBody :=
  {| body_topic := Some t; body_tone := None; body_platform := None;
     body_length := None; body_include_emojis := None;
     body_include_hashtags := None; body_variants := None |}.

Definition body_plain : RequestBody :=
  {| body_topic := Some (u "new menu"); body_tone := None; body_platform := None;
     body_length := None; body_include_emojis := Some false;
     body_include_hashtags := Some false; body_variants := Some 1%Z |}.

Definition body_hash : RequestBody :=
  {| body_topic := Some (u "#1 fan"); body_tone := None; body_platform := None;
     body_length := None; body_include_emojis := Some false;
     body_include_hashtags := Some false; body_variants := Some 1%Z |}.

(** ** The other endpoints of [main.py] *)

(** [str(e)] of a caught exception. How an [HTTPException] prints is the
    framework's business and is taken as given. *)
Definition exn_str (http_exception_str : Z -> pystr -> pystr) (e : exn) : pystr :=
  match e with
  | HTTPException status_code detail => http_exception_str status_code detail
  | Exception message => message
  end.

(** What the client of the other endpoints receives. *)
Inductive reply (A : Type) :=
  | Reply200 (body : A)
  | ReplyError (status_code : Z) (detail : pystr).
Arguments Reply200 {A} body.
Arguments ReplyError {A} status_code detail.

(** A value stored in a document: a string, or anything else ([V] is the
    type of the other values, an [ObjectId] among them). *)
Inductive value (V : Type) :=
  | VStr (s : pystr)
  | VOther (v : V).
Arguments VStr {V} s.
Arguments VOther {V} v.

(** [str(x)]: a string is its own rendering. *)
Definition py_str {V} (str_other : V -> pystr) (x : value V) : pystr :=
  match x with
  | VStr s => s
  | VOther v => str_other v
  end.

(** The body of the loop of [list_captions]:
    [if "_id" in it: it["_id"] = str(it["_id"])]. *)
Definition stringify_id {V} (str_other : V -> pystr)
    (it : gmap pystr (value V)) : gmap pystr (value V) :=
  match it !! u "_id" with
  | Some x => <[u "_id" := VStr (py_str str_other x)]> it
  | None => it
  end.

(** [list_captions]; [get_documents] belongs to the [database] module and
    receives the collection name, the empty filter and the limit. *)
Definition list_captions {V} (http_exception_str : Z -> pystr -> pystr)
    (str_other : V -> pystr)
    (get_documents :
       pystr -> gmap pystr (value V) -> Z -> result (list (gmap pystr (value V))))
    (limit : Z) : reply (list (gmap pystr (value V))) :=
  match get_documents (u "caption") ∅ limit with
  | Return items => Reply200 (map (stringify_id str_other) items)
  | Raise e => ReplyError 500 (exn_str http_exception_str e)
  end.

(** The [$set] document of [favorite_caption]. *)
Record FavoriteUpdate := {
  set_favorite : bool;
  set_favorite_index : Z;
  set_updated_at : Z
}.

(** The object [db] of the [database] module, over a store of type
    [Store]: its attribute [name] when it has one, [list_collection_names],
    and [update_one] on a collection, which gets the identifier to match and
    the fields to set and answers with the number of matched documents. *)
Record Database (Store Oid : Type) := {
  db_name : option pystr;
  list_collection_names : Store -> result (list pystr);
  update_one : pystr -> Oid -> FavoriteUpdate -> Store -> result Z * Store
}.
Arguments db_name {Store Oid} d.
Arguments list_collection_names {Store Oid} d σ.
Arguments update_one {Store Oid} d collection oid fields σ.

(** The body of the [try] of [favorite_caption]. [object_id] is the
    constructor [ObjectId] of [bson], which raises on a malformed string. *)
Definition favorite_body {Store Oid} (db : option (Database Store Oid))
    (object_id : pystr -> result Oid) (now : Z)
    (doc_id : pystr) (index : Z) (σ : Store) : result bool * Store :=
  match db with
  | None => (Raise (HTTPException 500 (u "Database not available")), σ)
  | Some d =>
      match object_id doc_id with
      | Raise e => (Raise e, σ)
      | Return oid =>
          match update_one d (u "caption") oid
                  {| set_favorite := true; set_favorite_index := index;
                     set_updated_at := now |} σ with
          | (Return _, σ') => (Return true, σ')
          | (Raise e, σ') => (Raise e, σ')
          end
      end
  end.

(** [favorite_caption]: every exception of the body, the [HTTPException]
    of the body included, is caught and raised again with status 500. *)
Definition favorite_caption {Store Oid} (http_exception_str : Z -> pystr -> pystr)
    (db : option (Database Store Oid)) (object_id : pystr -> result Oid) (now : Z)
    (doc_id : pystr) (index : Z) (σ : Store) : reply bool * Store :=
  match favorite_body db object_id now doc_id index σ with
  | (Return ok, σ') => (Reply200 ok, σ')
  | (Raise e, σ') => (ReplyError 500 (exn_str http_exception_str e), σ')
  end.

(** The dict returned by [test_database]. *)
Record Diagnosis := {
  backend : pystr;
  database : pystr;
  database_url : option pystr;
  database_name : option pystr;
  connection_status : pystr;
  collections : list pystr
}.

Definition with_database (v : pystr) (d : Diagnosis) : Diagnosis :=
  {| backend := backend d; database := v; database_url := database_url d;
     database_name := database_name d; connection_status := connection_status d;
     collections := collections d |}.

Definition with_database_url (v : pystr) (d : Diagnosis) : Diagnosis :=
  {| backend := backend d; database := database d; database_url := Some v;
     database_name := database_name d; connection_status := connection_status d;
     collections := collections d |}.

Definition with_database_name (v : pystr) (d : Diagnosis) : Diagnosis :=
  {| backend := backend d; database := database d; database_url := database_url d;
     database_name := Some v; connection_status := connection_status d;
     collections := collections d |}.

Definition with_connection_status (v : pystr) (d : Diagnosis) : Diagnosis :=
  {| backend := backend d; database := database d; database_url := database_url d;
     database_name := database_name d; connection_status := v;
     collections := collections d |}.

Definition with_collections (v : list pystr) (d : Diagnosis) : Diagnosis :=
  {| backend := backend d; database := database d; database_url := database_url d;
     database_name := database_name d; connection_status := connection_status d;
     collections := v |}.

(** The truth value of [os.getenv(name)]: set, and not the empty string. *)
Definition env_truthy (v : option pystr) : bool :=
  match v with
  | Some (_ :: _) => true
  | _ => false
  end.

(** [test_database]. Nothing in the outer [try] raises outside the inner
    one, whose handler is the second branch of the match on
    [list_collection_names]. *)
Definition test_database {Store Oid} (http_exception_str : Z -> pystr -> pystr)
    (db : option (Database Store Oid)) (getenv : pystr -> option pystr)
    (σ : Store) : Diagnosis :=
  let response :=
    {| backend := u "✅ Running";
       database := u "❌ Not Available";
       database_url := None;
       database_name := None;
       connection_status := u "Not Connected";
       collections := [] |} in
  let response :=
    match db with
    | Some d =>
        let response := with_database (u "✅ Available") response in
        let response := with_database_url (u "✅ Configured") response in
        let response :=
          with_database_name
            (match db_name d with Some name => name | None => u "✅ Connected" end)
            response in
        let response := with_connection_status (u "Connected") response in
        match list_collection_names d σ with
        | Return names =>
            let response := with_collections (take 10 names) response in
            with_database (u "✅ Connected & Working") response
        | Raise e =>
            with_database
              (u "⚠️  Connected but Error: " ++ take 50 (exn_str http_exception_str e))
              response
        end
    | None => with_database (u "⚠️  Available but not initialized") response
    end in
  let response :=
    with_database_url
      (if env_truthy (getenv (u "DATABASE_URL")) then u "✅ Set" else u "❌ Not Set")
      response in
  with_database_name
    (if env_truthy (getenv (u "DATABASE_NAME")) then u "✅ Set" else u "❌ Not Set")
    response.

(** ** Further notions used in the statements *)

(** The code points of the glyphs of all tone profiles. *)
Definition glyph_codepoints : list codepoint :=
  Eval vm_compute in concat (concat (map (fun entry => emojis (snd entry)) TONE_STYLES)).

(** A string without whitespace that is not empty: a word of [split]. *)
Definition is_word (w : pystr) : bool :=
  match w with
  | [] => false
  | _ => forallb (fun c => negb (is_space c)) w
  end.

(** A code point that can occur in well-formed text: a Unicode scalar
    value, that is, no surrogate. *)
Definition is_scalar (c : codepoint) : bool :=
  (c <? 55296) || ((57343 <? c) && (c <=? 1114111)).

Definition valid_text (s : pystr) : bool := forallb is_scalar s.

(** The bodies [RequestBody] stands for: every field that is present has
    its declared type, which the record type says, and every string is
    well-formed text, which this predicate says. The request model refuses
    any other body. *)
Definition well_formed (b : RequestBody) : bool :=
  from_option valid_text true (body_topic b)
  && from_option valid_text true (body_tone b)
  && from_option valid_text true (body_platform b)
  && from_option valid_text true (body_length b).

(** The string [build_caption] hands to its final [strip]: the f-string
    [f"{prefix} {core}{emoji_str}{ht_str}"]. *)
Definition unstripped_caption {U : UnicodeData} (topic tone platform length : pystr)
    (include_emojis include_hashtags : bool) (r : Rng) : pystr :=
  let tone_conf := dict_get tone TONE_STYLES tone_friendly in
  let '(prefix, _) := choose (prefixes tone_conf) r in
  let emojis := if include_emojis then emojis tone_conf else [] in
  let core := core_text topic length in
  let emoji_str :=
    match emojis with
    | [] => []
    | _ => u " " ++ join (u " ") (take 2 emojis)
    end in
  let ht := suggest_hashtags (S := gset pystr) topic platform include_hashtags length in
  let ht_str :=
    match ht with
    | [] => []
    | _ => [NEWLINE; NEWLINE] ++ ht
    end in
  prefix ++ u " " ++ core ++ emoji_str ++ ht_str.



(** ** Facts about lists and strings *)

Lemma filter_not_in_nil (l : list pystr) : filter (fun y => y ∉ ([] : list pystr)) l = l.
Proof.
  induction l as [|x l IH]; [done|].
  rewrite filter_cons_True by apply not_elem_of_nil. by rewrite IH.
Qed.

Lemma elem_of_dedup_first (l : list pystr) (x : pystr) : x ∈ dedup_first l ↔ x ∈ l.
Proof.
  induction l as [|a l IH]; simpl; [done|].
  rewrite !elem_of_cons, list_elem_of_filter, IH.
  destruct (decide (x = a)); tauto.
Qed.

Lemma NoDup_dedup_first (l : list pystr) : NoDup (dedup_first l).
Proof.
  induction l as [|a l IH]; simpl; constructor.
  - rewrite list_elem_of_filter. intros [Hne _]. by apply Hne.
  - by apply NoDup_filter.
Qed.

Lemma dedup_first_app (l k : list pystr) :
  dedup_first (l ++ k) = dedup_first l ++ filter (fun y => y ∉ l) (dedup_first k).
Proof.
  induction l as [|x l IH]; simpl.
  - by rewrite filter_not_in_nil.
  - rewrite IH, filter_app, list_filter_filter. do 2 f_equal.
    apply list_filter_iff. intros y. rewrite not_elem_of_cons. tauto.
Qed.

Lemma length_dedup_first (l : list pystr) : (List.length (dedup_first l) <= List.length l)%nat.
Proof.
  induction l as [|x l IH]; simpl; [lia|].
  pose proof (length_filter (fun y => y ≠ x) (dedup_first l)). lia.
Qed.

(** ** The loop of the selector computes deduplication and truncation *)

Section LoopRefinement.
Context {S : Type} `{PySet S} (laws : PySetLaws S).

Lemma represents_new : represents set_new [].
Proof.
  intros x. rewrite (contains_new S laws). symmetry.
  apply bool_decide_eq_false, not_elem_of_nil.
Qed.

Lemma represents_add (seen : S) (members : list pystr) (t : pystr) :
  represents seen members -> represents (set_add t seen) (t :: members).
Proof.
  intros Hrep x. rewrite (contains_add S laws), Hrep.
  destruct (decide (x = t)) as [->|Hne].
  - rewrite (bool_decide_eq_true_2 (t = t)) by done. simpl.
    symmetry. apply bool_decide_eq_true. left.
  - rewrite (bool_decide_eq_false_2 (x = t)) by done. simpl.
    apply bool_decide_ext. rewrite elem_of_cons. tauto.
Qed.

Lemma unique_loop_spec (limit : nat) (all_tags unique : list pystr)
    (seen : S) (members : list pystr) :
  represents seen members ->
  (List.length unique < limit)%nat ->
  unique_loop limit all_tags unique seen
  = take limit (unique ++ filter (fun y => y ∉ members) (dedup_first all_tags)).
Proof.
  revert unique seen members.
  induction all_tags as [|t rest IH]; intros unique seen members Hrep Hlen.
  - simpl. rewrite filter_nil, app_nil_r, take_ge by lia. done.
  - simpl. rewrite (Hrep t). destruct (decide (t ∈ members)) as [Hin|Hnin].
    + rewrite bool_decide_eq_true_2 by done.
      destruct (Nat.leb_spec limit (List.length unique)); [lia|].
      rewrite (IH _ _ members) by done.
      rewrite filter_cons_False by (intros Hn; exact (Hn Hin)).
      rewrite list_filter_filter. do 2 f_equal.
      apply list_filter_iff. intros y. split; [|tauto].
      intros Hy. split; [done|]. intros ->. done.
    + rewrite bool_decide_eq_false_2 by done.
      rewrite filter_cons_True by done.
      rewrite list_filter_filter.
      rewrite (list_filter_iff _ (fun y => y ∉ t :: members))
        by (intros y; rewrite not_elem_of_cons; tauto).
      replace (unique ++ t :: filter (fun y => y ∉ t :: members) (dedup_first rest))
        with ((unique ++ [t]) ++ filter (fun y => y ∉ t :: members) (dedup_first rest))
        by (by rewrite <- app_assoc).
      destruct (Nat.leb_spec limit (List.length (unique ++ [t]))) as [Hfull|Hmore].
      * rewrite length_app in Hfull. simpl in Hfull.
        symmetry. apply take_app_length'. rewrite length_app. simpl. lia.
      * apply IH; [by apply represents_add | done].
Qed.

Lemma unique_loop_dedup (limit : nat) (all_tags : list pystr) :
  (0 < limit)%nat ->
  unique_loop limit all_tags [] set_new = take limit (dedup_first all_tags).
Proof.
  intros Hpos.
  rewrite (unique_loop_spec limit all_tags [] set_new []) by (apply represents_new || (simpl; lia)).
  simpl. by rewrite filter_not_in_nil.
Qed.

End LoopRefinement.

Lemma gset_laws : PySetLaws (gset pystr).
Proof.
  split.
  - intros x. apply bool_decide_eq_false, not_elem_of_empty.
  - intros x y s. simpl. destruct (decide (x = y)) as [->|Hne].
    + rewrite (bool_decide_eq_true_2 (y = y)) by done. simpl.
      apply bool_decide_eq_true, elem_of_union_l, elem_of_singleton. done.
    + rewrite (bool_decide_eq_false_2 (x = y)) by done. simpl.
      apply bool_decide_ext. rewrite elem_of_union, elem_of_singleton. tauto.
Qed.

Lemma list_laws : PySetLaws (list pystr) (H := list_PySet).
Proof.
  split.
  - intros x. apply bool_decide_eq_false, not_elem_of_nil.
  - intros x y s. simpl. destruct (decide (x = y)) as [->|Hne].
    + rewrite (bool_decide_eq_true_2 (y = y)) by done. simpl.
      apply bool_decide_eq_true. left.
    + rewrite (bool_decide_eq_false_2 (x = y)) by done. simpl.
      apply bool_decide_ext. rewrite elem_of_cons. tauto.
Qed.

(** ** [strip] on strings with visible ends *)

Lemma lstrip_solid (s : pystr) : starts_solid s = true -> lstrip s = s.
Proof.
  destruct s as [|c s]; simpl; [done|].
  intros Hc. apply negb_true_iff in Hc. by rewrite Hc.
Qed.

Lemma rstrip_solid (s : pystr) : ends_solid s = true -> rstrip s = s.
Proof.
  unfold ends_solid, rstrip. destruct (last s) as [c|] eqn:Hlast; [|done].
  intros Hc. apply last_Some in Hlast as [s' ->].
  rewrite rev_app_distr. simpl. apply negb_true_iff in Hc. rewrite Hc.
  change (c :: rev s') with (rev [c] ++ rev s').
  by rewrite <- rev_app_distr, rev_involutive.
Qed.

Lemma strip_solid (s : pystr) :
  starts_solid s = true -> ends_solid s = true -> strip s = s.
Proof.
  intros Hs He. unfold strip. rewrite (lstrip_solid s Hs). by apply rstrip_solid.
Qed.

Lemma starts_solid_app (s k : pystr) :
  starts_solid s = true -> starts_solid (s ++ k) = true.
Proof. by destruct s. Qed.

Lemma ends_solid_nonempty (s : pystr) : ends_solid s = true -> s ≠ [].
Proof. intros He ->. discriminate He. Qed.

Lemma ends_solid_app (s k : pystr) :
  ends_solid k = true -> ends_solid (s ++ k) = true.
Proof.
  unfold ends_solid. destruct (last k) as [c|] eqn:Hlast; [|done].
  intros Hc. assert (last (s ++ k) = Some c) as -> by (apply last_app_Some; by left). done.
Qed.

Lemma ends_solid_join (sep : pystr) (parts : list pystr) (t : pystr) :
  last parts = Some t -> ends_solid t = true -> ends_solid (join sep parts) = true.
Proof.
  induction parts as [|p rest IH]; [done|].
  destruct rest as [|q rest].
  - simpl. intros [= ->]. done.
  - rewrite last_cons_cons. intros Hlast Ht.
    change (join sep (p :: q :: rest)) with (p ++ sep ++ join sep (q :: rest)).
    rewrite app_assoc. apply ends_solid_app. by apply IH.
Qed.

(** ** Facts read off the lookup tables *)

Lemma dict_lookup_elem_of {V} (key : pystr) (d : list (pystr * V)) (v : V) :
  dict_lookup key d = Some v -> v ∈ map snd d.
Proof.
  induction d as [|[k w] d IH]; simpl; [done|].
  destruct (decide (key = k)).
  - intros [= ->]. left.
  - intros Hv. right. by apply IH.
Qed.

Lemma tone_styles_ok : forallb profile_ok (tone_friendly :: map snd TONE_STYLES) = true.
Proof. vm_compute. reflexivity. Qed.

Lemma resolved_profile_ok (tone : pystr) : profile_ok (resolved_profile tone) = true.
Proof.
  pose proof tone_styles_ok as Hall.
  rewrite forallb_forall in Hall. apply Hall.
  unfold resolved_profile.
  destruct (dict_lookup tone TONE_STYLES) as [p|] eqn:Hp.
  - right. apply list_elem_of_In. by apply (dict_lookup_elem_of tone).
  - left. done.
Qed.

Lemma dict_get_tone (tone : pystr) :
  dict_get tone TONE_STYLES tone_friendly = resolved_profile tone.
Proof. unfold dict_get, resolved_profile. by destruct (dict_lookup tone TONE_STYLES). Qed.

Lemma platform_tags_ok :
  forallb (forallb (fun t => ends_solid t && starts_solid t))
    (GENERIC_HASHTAGS :: map snd PLATFORM_HASHTAGS) = true.
Proof. vm_compute. reflexivity. Qed.

Lemma elem_of_take_elem_of (n : nat) (l : list pystr) (x : pystr) : x ∈ take n l -> x ∈ l.
Proof.
  rewrite elem_of_take. intros (i & Hi & _). by apply (list_elem_of_lookup_2 l i).
Qed.

Lemma generic_tags_solid (t : pystr) : t ∈ GENERIC_HASHTAGS -> ends_solid t = true.
Proof.
  intros Ht. pose proof platform_tags_ok as Hall.
  rewrite forallb_forall in Hall.
  specialize (Hall GENERIC_HASHTAGS (or_introl eq_refl)).
  rewrite forallb_forall in Hall. apply list_elem_of_In in Ht.
  apply Hall in Ht. by apply andb_true_iff in Ht as [? _].
Qed.

Lemma platform_tags_solid (platform t : pystr) :
  t ∈ dict_get platform PLATFORM_HASHTAGS [] -> ends_solid t = true.
Proof.
  unfold dict_get.
  destruct (dict_lookup platform PLATFORM_HASHTAGS) as [tags|] eqn:Htags; simpl.
  - intros Ht. pose proof platform_tags_ok as Hall.
    rewrite forallb_forall in Hall.
    assert (In tags (GENERIC_HASHTAGS :: map snd PLATFORM_HASHTAGS)) as Hin.
    { right. apply list_elem_of_In. by apply (dict_lookup_elem_of platform). }
    apply Hall in Hin. rewrite forallb_forall in Hin.
    apply list_elem_of_In in Ht. apply Hin in Ht.
    by apply andb_true_iff in Ht as [? _].
  - intros Ht. by apply not_elem_of_nil in Ht.
Qed.

(** ** The selector in closed form *)

Section SelectorFacts.
Context {U : UnicodeData}.

Lemma tag_limit_ge (length : pystr) : (4 <= tag_limit length)%nat.
Proof. unfold tag_limit. repeat case_decide; lia. Qed.

Lemma length_topic_tags (topic : pystr) : (List.length (topic_tags topic) <= 3)%nat.
Proof. unfold topic_tags. rewrite length_take. lia. Qed.

Lemma generic_tags_NoDup (length : pystr) : NoDup (generic_tags length).
Proof.
  unfold generic_tags. case_decide.
  - apply (bool_decide_unpack _). vm_compute. reflexivity.
  - apply (bool_decide_unpack _). vm_compute. reflexivity.
Qed.

Lemma length_generic_tags (length : pystr) : (3 <= List.length (generic_tags length))%nat.
Proof. unfold generic_tags. case_decide; vm_compute; lia. Qed.

Lemma table_tag_solid (platform length t : pystr) :
  t ∈ base_tags platform ++ generic_tags length -> ends_solid t = true.
Proof.
  rewrite elem_of_app. intros [Ht|Ht].
  - apply (platform_tags_solid platform). by apply (elem_of_take_elem_of 3).
  - apply generic_tags_solid. unfold generic_tags in Ht.
    by apply elem_of_take_elem_of in Ht.
Qed.

Lemma suggest_hashtags_closed {S} `{PySet S} (laws : PySetLaws S)
    (topic platform length : pystr) :
  suggest_hashtags (S := S) topic platform true length
  = join (u " ")
      (take (tag_limit length)
         (dedup_first (topic_tags topic ++ base_tags platform ++ generic_tags length))).
Proof.
  unfold suggest_hashtags. simpl negb. cbv iota.
  rewrite (unique_loop_dedup laws); [done|].
  pose proof (tag_limit_ge length). lia.
Qed.

(** The last tag of the line always is a platform or generic tag: the
    topic contributes at most three tags and the limit is at least four. *)
Lemma last_tag_in_tables (topic platform length t : pystr) :
  last (take (tag_limit length)
          (dedup_first (topic_tags topic ++ base_tags platform ++ generic_tags length)))
  = Some t ->
  t ∈ base_tags platform ++ generic_tags length.
Proof.
  pose proof (tag_limit_ge length) as Hlimit.
  pose proof (length_topic_tags topic) as Htopic.
  pose proof (length_dedup_first (topic_tags topic)) as Hdedup.
  rewrite dedup_first_app, take_app.
  rewrite (take_ge (dedup_first (topic_tags topic))) by lia.
  set (T := topic_tags topic) in *.
  set (R := base_tags platform ++ generic_tags length).
  destruct (filter (fun y => y ∉ T) (dedup_first R)) as [|d rest] eqn:Hrest.
  - rewrite take_nil, app_nil_r. intros Hlast.
    assert (generic_tags length ⊆+ dedup_first T) as Hsub.
    { apply NoDup_submseteq; [apply generic_tags_NoDup|].
      intros x Hx. apply elem_of_dedup_first.
      destruct (decide (x ∈ T)) as [|Hnot]; [done|]. exfalso.
      apply (filter_nil_not_elem_of _ _ x Hrest Hnot).
      apply elem_of_dedup_first. unfold R. rewrite elem_of_app. by right. }
    pose proof (length_generic_tags length) as Hgeneric.
    apply submseteq_length_Permutation in Hsub; [|lia].
    unfold R. rewrite elem_of_app. right. rewrite Hsub.
    by apply last_Some_elem_of.
  - destruct (tag_limit length - List.length (dedup_first T))%nat as [|k] eqn:Hk; [lia|].
    simpl take. intros Hlast.
    apply last_app_Some in Hlast as [Hlast|[Hnone _]].
    + apply last_Some_elem_of in Hlast.
      assert (t ∈ d :: rest) as Hin.
      { apply elem_of_cons in Hlast as [->|Hlast]; [left|right].
        by apply (elem_of_take_elem_of k). }
      rewrite <- Hrest in Hin. apply list_elem_of_filter in Hin as [_ Hin].
      exact (proj1 (elem_of_dedup_first _ _) Hin).
    + apply last_None in Hnone. discriminate Hnone.
Qed.

Lemma selected_tags_nonempty (topic platform length : pystr) :
  take (tag_limit length)
    (dedup_first (topic_tags topic ++ base_tags platform ++ generic_tags length)) ≠ [].
Proof.
  pose proof (tag_limit_ge length) as Hlimit.
  pose proof (length_generic_tags length) as Hgeneric.
  destruct (topic_tags topic ++ base_tags platform ++ generic_tags length) as [|x l] eqn:Hall.
  - apply (f_equal List.length) in Hall. rewrite !length_app in Hall. simpl in Hall. lia.
  - simpl. destruct (tag_limit length); [lia|]. done.
Qed.

Lemma suggest_hashtags_solid (topic platform length : pystr) :
  ends_solid (suggest_hashtags (S := gset pystr) topic platform true length) = true.
Proof.
  rewrite (suggest_hashtags_closed gset_laws).
  pose proof (selected_tags_nonempty topic platform length) as Hne.
  destruct (last (take (tag_limit length)
    (dedup_first (topic_tags topic ++ base_tags platform ++ generic_tags length))))
    as [t|] eqn:Hlast.
  - apply (ends_solid_join _ _ t Hlast).
    apply (table_tag_solid platform length). by apply (last_tag_in_tables topic).
  - by apply last_None in Hlast.
Qed.

End SelectorFacts.

(** ** The assembler in closed form *)

Section CaptionFacts.
Context {U : UnicodeData}.

Lemma core_text_solid (topic length : pystr) : ends_solid (core_text topic length) = true.
Proof.
  unfold core_text. repeat case_decide; apply ends_solid_app; vm_compute; reflexivity.
Qed.

Lemma profile_prefixes (tone : pystr) :
  prefixes (resolved_profile tone) ≠ []
  /\ forall p, p ∈ prefixes (resolved_profile tone) ->
       starts_solid p = true /\ ends_solid p = true /\ has_hash p = false.
Proof.
  pose proof (resolved_profile_ok tone) as Hok. unfold profile_ok in Hok.
  apply andb_true_iff in Hok as [Hok _]. apply andb_true_iff in Hok as [Hne Hall].
  split.
  - intros Hnil. rewrite Hnil in Hne. discriminate Hne.
  - intros p Hp. rewrite forallb_forall in Hall.
    apply list_elem_of_In, Hall in Hp.
    apply andb_true_iff in Hp as [Hp Hh]. apply andb_true_iff in Hp as [Hs He].
    apply negb_true_iff in Hh. done.
Qed.

Lemma profile_emojis (tone e : pystr) :
  e ∈ emojis (resolved_profile tone) -> ends_solid e = true /\ has_hash e = false.
Proof.
  pose proof (resolved_profile_ok tone) as Hok. unfold profile_ok in Hok.
  apply andb_true_iff in Hok as [_ Hall]. rewrite forallb_forall in Hall.
  intros He. apply list_elem_of_In, Hall in He.
  apply andb_true_iff in He as [He Hh]. apply negb_true_iff in Hh. done.
Qed.

Lemma drawn_prefix_elem_of (tone : pystr) (r : Rng) :
  drawn_prefix tone r ∈ prefixes (resolved_profile tone).
Proof.
  destruct (profile_prefixes tone) as [Hne _]. unfold drawn_prefix. cbv zeta.
  apply list_elem_of_In, nth_In. apply Nat.mod_upper_bound.
  destruct (prefixes (resolved_profile tone)); [done|]. simpl. lia.
Qed.

Lemma choose_prefix (tone : pystr) (r : Rng) :
  choose (prefixes (resolved_profile tone)) r = (drawn_prefix tone r, advance 1 r).
Proof.
  destruct (profile_prefixes tone) as [Hne _]. unfold drawn_prefix, choose.
  destruct (prefixes (resolved_profile tone)) as [|p ps]; [done|]. reflexivity.
Qed.

Lemma emoji_suffix_solid (tone : pystr) (include_emojis : bool) :
  emoji_suffix tone include_emojis = []
  \/ ends_solid (emoji_suffix tone include_emojis) = true.
Proof.
  unfold emoji_suffix. destruct include_emojis; [|by left].
  destruct (emojis (resolved_profile tone)) as [|e1 es] eqn:He; [by left|right].
  apply ends_solid_app.
  assert (exists e, last (take 2 (e1 :: es)) = Some e /\ e ∈ e1 :: es) as (e & Hlast & Hin).
  { destruct es as [|e2 es]; simpl.
    - exists e1. split; [done|left].
    - exists e2. split; [done|right; left]. }
  apply (ends_solid_join _ _ e Hlast).
  rewrite <- He in Hin. by apply (profile_emojis tone).
Qed.

Lemma hashtag_block_true (topic platform length : pystr) :
  hashtag_block topic platform true length
  = [NEWLINE; NEWLINE] ++ suggest_hashtags (S := gset pystr) topic platform true length.
Proof.
  unfold hashtag_block.
  pose proof (suggest_hashtags_solid topic platform length) as Hsolid.
  apply ends_solid_nonempty in Hsolid.
  by destruct (suggest_hashtags topic platform true length).
Qed.

Lemma hashtag_block_false (topic platform length : pystr) :
  hashtag_block topic platform false length = [].
Proof. reflexivity. Qed.

Lemma caption_tail_solid (topic tone platform length : pystr)
    (include_emojis include_hashtags : bool) :
  ends_solid (core_text topic length ++ emoji_suffix tone include_emojis
              ++ hashtag_block topic platform include_hashtags length) = true.
Proof.
  destruct include_hashtags.
  - rewrite hashtag_block_true, !app_assoc. apply ends_solid_app, suggest_hashtags_solid.
  - rewrite hashtag_block_false, app_nil_r.
    destruct (emoji_suffix_solid tone include_emojis) as [-> | Hsolid].
    + rewrite app_nil_r. apply core_text_solid.
    + by apply ends_solid_app.
Qed.

(** [strip] changes nothing in the assembled caption. *)
Lemma build_caption_eq (topic tone platform length : pystr)
    (include_emojis include_hashtags : bool) (r : Rng) :
  build_caption topic tone platform length include_emojis include_hashtags r
  = (drawn_prefix tone r ++ u " " ++ core_text topic length
       ++ emoji_suffix tone include_emojis
       ++ hashtag_block topic platform include_hashtags length,
     advance 1 r).
Proof.
  unfold build_caption. rewrite dict_get_tone, choose_prefix.
  assert ((match (if include_emojis then emojis (resolved_profile tone) else []) with
           | [] => []
           | _ :: _ =>
               u " " ++ join (u " ")
                 (take 2 (if include_emojis then emojis (resolved_profile tone) else []))
           end) = emoji_suffix tone include_emojis) as ->.
  { unfold emoji_suffix. destruct include_emojis; [|done].
    by destruct (emojis (resolved_profile tone)). }
  assert ((match suggest_hashtags (S := gset pystr) topic platform include_hashtags length with
           | [] => []
           | _ :: _ =>
               [NEWLINE; NEWLINE]
                 ++ suggest_hashtags (S := gset pystr) topic platform include_hashtags length
           end) = hashtag_block topic platform include_hashtags length) as ->.
  { unfold hashtag_block.
    by destruct (suggest_hashtags topic platform include_hashtags length). }
  f_equal. apply strip_solid.
  - apply starts_solid_app.
    destruct (profile_prefixes tone) as [_ Hall].
    by apply Hall, drawn_prefix_elem_of.
  - rewrite app_assoc. apply ends_solid_app, caption_tail_solid.
Qed.

End CaptionFacts.

(** ** The endpoint in closed form *)

Lemma advance_0 (r : Rng) : advance 0 r = r.
Proof. by destruct r. Qed.

Lemma advance_advance (i : nat) (r : Rng) : advance i (advance 1 r) = advance (S i) r.
Proof. unfold advance. simpl. f_equal. lia. Qed.

Section EndpointFacts.
Context {U : UnicodeData}.

Lemma variants_loop_spec (n : nat) (payload : GenerateRequest)
    (variants : list pystr) (r : Rng) :
  variants_loop n (strip (req_topic payload)) payload variants r
  = (variants ++ map (fun i => caption_for payload (advance i r)) (seq 0 n),
     advance n r).
Proof.
  revert variants r. induction n as [|n IH]; intros variants r.
  - simpl. by rewrite app_nil_r, advance_0.
  - cbn [variants_loop]. rewrite build_caption_eq, IH.
    change (seq 0 (S n)) with (0%nat :: seq 1 n).
    rewrite <- seq_shift, <- app_assoc. cbn [map app].
    rewrite map_map.
    f_equal; [|apply advance_advance].
    f_equal. f_equal.
    + unfold caption_for. by rewrite advance_0, build_caption_eq.
    + apply map_ext. intros i. by rewrite advance_advance.
Qed.

Lemma generate_body_accepted (env : Environment) (payload : GenerateRequest) (r : Rng) :
  strip (req_topic payload) ≠ [] ->
  generate_body env payload r
  = (Return {| resp_variants := generated_variants payload r;
               saved_id :=
                 match create_document env (u "caption")
                         (record_of env payload (generated_variants payload r)) with
                 | Return id => Some id
                 | Raise _ => None
                 end |},
     advance (Z.to_nat (req_variants payload)) r).
Proof.
  intros Htopic. unfold generate_body.
  destruct (strip (req_topic payload)) as [|c t] eqn:Hstrip; [done|].
  rewrite <- Hstrip, variants_loop_spec. reflexivity.
Qed.

Lemma generate_body_rejected (env : Environment) (payload : GenerateRequest) (r : Rng) :
  strip (req_topic payload) = [] ->
  generate_body env payload r = (Raise (HTTPException 400 (u "Topic is required")), r).
Proof. intros Htopic. unfold generate_body. by rewrite Htopic. Qed.

Lemma post_generate_accepted (env : Environment) (b : RequestBody)
    (payload : GenerateRequest) (r : Rng) :
  parse_request b = Some payload ->
  strip (req_topic payload) ≠ [] ->
  post_generate env b r
  = (Http200 {| resp_variants := generated_variants payload r;
                saved_id :=
                  match create_document env (u "caption")
                          (record_of env payload (generated_variants payload r)) with
                  | Return id => Some id
                  | Raise _ => None
                  end |},
     advance (Z.to_nat (req_variants payload)) r).
Proof.
  intros Hparse Htopic. unfold post_generate, generate_captions.
  by rewrite Hparse, generate_body_accepted.
Qed.

Lemma post_generate_empty_topic (env : Environment) (b : RequestBody)
    (payload : GenerateRequest) (r : Rng) :
  parse_request b = Some payload ->
  strip (req_topic payload) = [] ->
  post_generate env b r = (HttpError 400 (Some (u "Topic is required")), r).
Proof.
  intros Hparse Htopic. unfold post_generate, generate_captions.
  by rewrite Hparse, generate_body_rejected.
Qed.

Lemma post_generate_invalid (env : Environment) (b : RequestBody) (r : Rng) :
  parse_request b = None -> post_generate env b r = (HttpError 422 None, r).
Proof. intros Hparse. unfold post_generate. by rewrite Hparse. Qed.

Lemma parse_request_inv (b : RequestBody) (payload : GenerateRequest) :
  parse_request b = Some payload ->
  body_topic b = Some (req_topic payload)
  /\ (3 <= List.length (req_topic payload))%nat
  /\ (1 <= req_variants payload <= 10)%Z
  /\ req_tone payload = default (u "friendly") (body_tone b)
  /\ req_platform payload = default (u "instagram") (body_platform b)
  /\ req_length payload = default (u "medium") (body_length b)
  /\ req_include_emojis payload = default true (body_include_emojis b)
  /\ req_include_hashtags payload = default true (body_include_hashtags b)
  /\ req_variants payload = default 3%Z (body_variants b).
Proof.
  unfold parse_request. destruct (body_topic b) as [t|]; [|done].
  destruct ((3 <=? List.length t)%nat && (1 <=? default 3 (body_variants b))%Z
            && (default 3 (body_variants b) <=? 10)%Z) eqn:Hok; [|done].
  intros [= <-]. simpl.
  apply andb_true_iff in Hok as [Hok Hle]. apply andb_true_iff in Hok as [Hlen Hge].
  apply Nat.leb_le in Hlen. apply Z.leb_le in Hge. apply Z.leb_le in Hle.
  repeat split; done.
Qed.

End EndpointFacts.

(** ** Where the characters of a caption come from *)

Lemma elem_of_lstrip (s : pystr) (c : codepoint) : c ∈ lstrip s -> c ∈ s.
Proof.
  induction s as [|d s IH]; simpl; [done|].
  destruct (is_space d); [|done]. intros Hc. right. by apply IH.
Qed.

Lemma elem_of_strip (s : pystr) (c : codepoint) : c ∈ strip s -> c ∈ s.
Proof.
  unfold strip, rstrip. intros Hc.
  apply elem_of_lstrip, list_elem_of_In, in_rev, list_elem_of_In.
  apply elem_of_lstrip, list_elem_of_In, in_rev, list_elem_of_In. done.
Qed.

Lemma elem_of_join (sep : pystr) (parts : list pystr) (c : codepoint) :
  c ∈ join sep parts -> c ∈ sep \/ exists p, p ∈ parts /\ c ∈ p.
Proof.
  induction parts as [|p rest IH]; [by intros ?%not_elem_of_nil|].
  destruct rest as [|q rest].
  - simpl. intros Hc. right. exists p. split; [left|done].
  - change (join sep (p :: q :: rest)) with (p ++ sep ++ join sep (q :: rest)).
    rewrite !elem_of_app. intros [Hc|[Hc|Hc]].
    + right. exists p. split; [left|done].
    + by left.
    + destruct (IH Hc) as [Hsep|(p' & Hp' & Hcp')]; [by left|].
      right. exists p'. split; [by right|done].
Qed.

(** ** Captions without a hashtag block *)

Section HashFree.
Context {U : UnicodeData}.

Lemma no_hash_literal (s : pystr) : has_hash s = false -> HASH ∉ s.
Proof. unfold has_hash. intros Hs. by apply bool_decide_eq_false in Hs. Qed.

Lemma no_hash_prefix (tone : pystr) (r : Rng) : HASH ∉ drawn_prefix tone r.
Proof.
  apply no_hash_literal.
  destruct (profile_prefixes tone) as [_ Hall].
  by apply Hall, drawn_prefix_elem_of.
Qed.

Lemma no_hash_core (topic length : pystr) :
  HASH ∉ topic -> HASH ∉ core_text topic length.
Proof.
  intros Htopic. unfold core_text.
  repeat case_decide; rewrite elem_of_app; intros [Hin|Hin];
    try (by apply Htopic); revert Hin; apply no_hash_literal;
    vm_compute; reflexivity.
Qed.

Lemma no_hash_emoji (tone : pystr) (include_emojis : bool) :
  HASH ∉ emoji_suffix tone include_emojis.
Proof.
  unfold emoji_suffix. destruct include_emojis; [|apply not_elem_of_nil].
  destruct (emojis (resolved_profile tone)) as [|e1 es] eqn:He; [apply not_elem_of_nil|].
  rewrite elem_of_app. intros [Hin|Hin].
  - revert Hin. apply no_hash_literal. vm_compute. reflexivity.
  - apply elem_of_join in Hin as [Hin|(e & He' & Hin)].
    + revert Hin. apply no_hash_literal. vm_compute. reflexivity.
    + revert Hin. apply no_hash_literal.
      apply (profile_emojis tone). rewrite He.
      by apply (elem_of_take_elem_of 2).
Qed.

End HashFree.

(** ** The keywords of the length categories are distinct strings *)

Ltac literal_neq :=
  let Heq := fresh "Heq" in
  intros Heq; vm_compute in Heq; discriminate Heq.

Lemma tag_limit_long {U : UnicodeData} : tag_limit (u "long") = 10%nat.
Proof. vm_compute. reflexivity. Qed.

Lemma tag_limit_medium {U : UnicodeData} : tag_limit (u "medium") = 7%nat.
Proof. vm_compute. reflexivity. Qed.

Lemma generic_tags_long {U : UnicodeData} : generic_tags (u "long") = take 5 GENERIC_HASHTAGS.
Proof. vm_compute. reflexivity. Qed.

Lemma core_text_medium {U : UnicodeData} (topic : pystr) :
  core_text topic (u "medium")
  = topic ++ u " done right. Screenshot this if you needed the nudge.".
Proof.
  unfold core_text.
  rewrite (decide_False (P := u "medium" = u "short")) by literal_neq.
  rewrite (decide_False (P := u "medium" = u "long")) by literal_neq.
  reflexivity.
Qed.

(** ** The properties of the specification *)

(** C1. With the gate open and a length of short, medium or long, the
    selector returns the topic-derived tags (up to three alphabetic
    whitespace-delimited tokens, lower-cased, with ['#'] in front), then the
    first three tags of the platform (none for an unknown platform), then
    the first three generic tags for short and the first five otherwise,
    deduplicated keeping first occurrences, cut to 4, 7 or 10 tags and joined
    with single spaces; the tags of the line are pairwise distinct. *)
Theorem suggest_hashtags_selects {U : UnicodeData}
    (topic platform length : pystr) (cap : nat) :
  spec_max_tags length = Some cap ->
  suggest_hashtags (S := gset pystr) topic platform true length
    = join (u " ") (spec_selected_tags topic platform length cap)
  /\ NoDup (spec_selected_tags topic platform length cap)
  /\ (List.length (spec_selected_tags topic platform length cap) <= cap)%nat.
Proof.
  intros Hcap.
  assert (tag_limit length = cap) as Hlimit.
  { unfold spec_max_tags in Hcap. unfold tag_limit.
    repeat case_decide; congruence. }
  assert (spec_selected_tags topic platform length cap
          = take cap (dedup_first
              (topic_tags topic ++ base_tags platform ++ generic_tags length))) as ->.
  { unfold spec_selected_tags, topic_tags, base_tags, generic_tags, dict_get.
    by case_decide. }
  split; [|split].
  - by rewrite (suggest_hashtags_closed gset_laws), Hlimit.
  - eapply sublist_NoDup; [apply NoDup_dedup_first | apply sublist_take].
  - rewrite length_take. lia.
Qed.

Lemma suggest_hashtags_selects_witness :
  spec_max_tags (u "short") = Some 4%nat
  /\ suggest_hashtags (U := ascii_data) (S := gset pystr)
       (u "coffee shop launch") (u "instagram") true (u "short")
     = join (u " ")
         (spec_selected_tags (U := ascii_data)
            (u "coffee shop launch") (u "instagram") (u "short") 4).
Proof.
  split; [reflexivity|].
  apply (suggest_hashtags_selects (U := ascii_data)
           (u "coffee shop launch") (u "instagram") (u "short") 4).
  reflexivity.
Defined.

Example suggest_hashtags_coffee :
  suggest_hashtags (U := ascii_data) (S := gset pystr)
    (u "coffee shop launch") (u "instagram") true (u "short")
  = u "#coffee #shop #launch #instadaily".
Proof. vm_compute. reflexivity. Qed.

Example suggest_hashtags_repeats :
  suggest_hashtags (U := ascii_data) (S := gset pystr)
    (u "Life goals 4ever viral") (u "tiktok") true (u "long")
  = u "#life #goals #viral #fyp #foryou #tiktok #creative #inspo #community".
Proof. vm_compute. reflexivity. Qed.

(** C8. The selector is deterministic: its output is fixed by its four
    inputs. It draws nothing from the random source, and the only stateful
    object it builds, the set [seen], is used for membership tests alone, so
    the output is the same under every implementation (every hash seed) of
    the set. *)
Theorem suggest_hashtags_deterministic {U : UnicodeData}
    {S1 : Type} {P1 : PySet S1} {S2 : Type} {P2 : PySet S2}
    (topic platform : pystr) (include_hashtags : bool) (length : pystr) :
  PySetLaws S1 -> PySetLaws S2 ->
  suggest_hashtags (S := S1) topic platform include_hashtags length
  = suggest_hashtags (S := S2) topic platform include_hashtags length.
Proof.
  intros laws1 laws2. destruct include_hashtags; [|reflexivity].
  by rewrite (suggest_hashtags_closed laws1), (suggest_hashtags_closed laws2).
Qed.

Lemma suggest_hashtags_deterministic_witness :
  suggest_hashtags (U := ascii_data) (S := gset pystr)
    (u "coffee shop launch") (u "instagram") true (u "short")
  = suggest_hashtags (U := ascii_data) (S := list pystr) (H := list_PySet)
      (u "coffee shop launch") (u "instagram") true (u "short").
Proof.
  apply (suggest_hashtags_deterministic (U := ascii_data) (P1 := gset_PySet)
           (P2 := list_PySet)).
  - exact gset_laws.
  - exact list_laws.
Defined.

(** C9. With the gate open the selector's output is never empty (the
    generic list always supplies at least three candidate tags), and every
    caption assembled with [include_hashtags = true] ends with two newlines
    followed by that output. *)
Theorem hashtag_block_present {U : UnicodeData}
    (topic tone platform length : pystr) (include_emojis : bool) (r : Rng) :
  (3 <= List.length (generic_tags length))%nat
  /\ suggest_hashtags (S := gset pystr) topic platform true length ≠ []
  /\ fst (build_caption topic tone platform length include_emojis true r)
     = (drawn_prefix tone r ++ u " " ++ core_text topic length
          ++ emoji_suffix tone include_emojis)
       ++ [NEWLINE; NEWLINE]
       ++ suggest_hashtags (S := gset pystr) topic platform true length.
Proof.
  split; [apply length_generic_tags|]. split.
  - apply ends_solid_nonempty, suggest_hashtags_solid.
  - rewrite build_caption_eq, hashtag_block_true. simpl fst.
    by rewrite <- !app_assoc.
Qed.




(** C5, as the code has it. Every caption is a prefix of the resolved tone
    profile (the friendly profile for a tone that is not in the table, such
    as ["mystery"]), a space, the body, the emoji suffix and the hashtag
    block. The body is the topic followed by the text of its length
    category, which the source spells with the typographic apostrophe
    U+2019 in "let’s" and "Here’s". *)
Theorem caption_prefix_and_body {U : UnicodeData}
    (topic tone platform length : pystr)
    (include_emojis include_hashtags : bool) (r : Rng) :
  exists prefix body,
    prefix ∈ prefixes (resolved_profile tone)
    /\ fst (build_caption topic tone platform length include_emojis include_hashtags r)
       = prefix ++ u " " ++ body ++ emoji_suffix tone include_emojis
           ++ hashtag_block topic platform include_hashtags length
    /\ body =
         (if decide (length = u "short") then topic ++ u " — let’s go!"
          else if decide (length = u "long") then
            topic ++ u ". Here’s why it matters and how you can make it work today. Save this for later!"
          else topic ++ u " done right. Screenshot this if you needed the nudge.")
    /\ resolved_profile (u "mystery") = tone_friendly
    /\ (dict_lookup tone TONE_STYLES = None -> resolved_profile tone = tone_friendly).
Proof.
  exists (drawn_prefix tone r), (core_text topic length).
  split; [apply drawn_prefix_elem_of|].
  split; [rewrite build_caption_eq; reflexivity|].
  split; [reflexivity|]. split; [vm_compute; reflexivity|].
  intros Hnone. unfold resolved_profile. rewrite Hnone. reflexivity.
Qed.

Lemma caption_prefix_and_body_witness :
  dict_lookup (u "mystery") TONE_STYLES = None
  /\ resolved_profile (u "mystery") = tone_friendly.
Proof.
  destruct (caption_prefix_and_body (U := ascii_data) (u "sale") (u "mystery")
              (u "instagram") (u "short") false false rng_zero)
    as (prefix & body & _ & _ & _ & _ & Hunknown).
  assert (dict_lookup (u "mystery") TONE_STYLES = None) as Hnone
    by (vm_compute; reflexivity).
  split; [exact Hnone | exact (Hunknown Hnone)].
Defined.

Example caption_short_sale :
  fst (build_caption (U := ascii_data) (u "sale") (u "witty") (u "instagram")
         (u "short") true false rng_zero)
  = u "Plot twist: sale — let’s go! 😏 🔥".
Proof. vm_compute. reflexivity. Qed.

(** C5 as stated fails on the apostrophe: the short body of topic ["sale"]
    is not the string with the ASCII apostrophe U+0027, which occurs nowhere
    in the caption. *)
Lemma short_body_counterexample :
  let caption :=
    fst (build_caption (U := ascii_data) (u "sale") (u "mystery") (u "instagram")
           (u "short") false false rng_zero) in
  caption = u "Hey there! sale — let’s go!"
  /\ (APOSTROPHE ∉ caption)
  /\ forall prefix rest, caption ≠ prefix ++ u " " ++ u "sale — let's go!" ++ rest.
Proof.
  cbv zeta.
  assert (fst (build_caption (U := ascii_data) (u "sale") (u "mystery")
            (u "instagram") (u "short") false false rng_zero)
          = u "Hey there! sale — let’s go!") as Hcaption
    by (vm_compute; reflexivity).
  rewrite Hcaption. split; [reflexivity|].
  assert (APOSTROPHE ∉ u "Hey there! sale — let’s go!") as Hnot.
  { apply (bool_decide_unpack _). vm_compute. reflexivity. }
  split; [exact Hnot|].
  intros prefix rest Heq. apply Hnot. rewrite Heq.
  apply elem_of_app. right. apply elem_of_app. right. apply elem_of_app. left.
  apply (bool_decide_unpack _). vm_compute. reflexivity.
Qed.

(** C2. A valid request whose topic is accepted is answered with exactly
    [variants] captions, each the output of one call of the assembler, in
    the order of the calls: the caption at position [i] is the assembler's
    output on the random state reached after [i] draws. *)
Theorem generate_returns_requested_count {U : UnicodeData}
    (env : Environment) (b : RequestBody) (payload : GenerateRequest) (r : Rng) :
  parse_request b = Some payload ->
  strip (req_topic payload) ≠ [] ->
  (1 <= req_variants payload <= 10)%Z
  /\ exists resp r',
       post_generate env b r = (Http200 resp, r')
       /\ List.length (resp_variants resp) = Z.to_nat (req_variants payload)
       /\ forall i, (i < Z.to_nat (req_variants payload))%nat ->
            resp_variants resp !! i = Some (caption_for payload (advance i r)).
Proof.
  intros Hparse Htopic.
  split; [apply (parse_request_inv b payload Hparse)|].
  eexists _, _. split; [apply (post_generate_accepted env b payload r Hparse Htopic)|].
  cbn [resp_variants]. unfold generated_variants. split.
  - by rewrite length_map, length_seq.
  - intros i Hi. rewrite list_lookup_fmap, lookup_seq_lt by done. reflexivity.
Qed.

Lemma generate_returns_requested_count_witness :
  exists resp r',
    post_generate (U := ascii_data) env_db_ok (body_of_topic (u "coffee shop launch"))
      rng_zero = (Http200 resp, r')
    /\ List.length (resp_variants resp) = 3%nat.
Proof.
  destruct (generate_returns_requested_count (U := ascii_data) env_db_ok
              (body_of_topic (u "coffee shop launch"))
              {| req_topic := u "coffee shop launch"; req_tone := u "friendly";
                 req_platform := u "instagram"; req_length := u "medium";
                 req_include_emojis := true; req_include_hashtags := true;
                 req_variants := 3 |} rng_zero)
    as (_ & resp & r' & Hrun & Hlen & _).
  - vm_compute. reflexivity.
  - literal_neq.
  - exists resp, r'. split; [exact Hrun | exact Hlen].
Defined.

(** C7. When [create_document] raises, a valid request is still answered
    with status 200, the full list of variants (the list a working database
    would have seen returned) and [saved_id] null. *)
Theorem persistence_failure_absorbed {U : UnicodeData}
    (env : Environment) (b : RequestBody) (payload : GenerateRequest) (r : Rng) :
  parse_request b = Some payload ->
  strip (req_topic payload) ≠ [] ->
  (forall collection doc, exists e, create_document env collection doc = Raise e) ->
  fst (post_generate env b r)
    = Http200 {| resp_variants := generated_variants payload r; saved_id := None |}
  /\ List.length (generated_variants payload r) = Z.to_nat (req_variants payload)
  /\ forall env' resp',
       fst (post_generate env' b r) = Http200 resp' ->
       resp_variants resp' = generated_variants payload r.
Proof.
  intros Hparse Htopic Hraise. split; [|split].
  - rewrite (post_generate_accepted env b payload r Hparse Htopic). cbn [fst].
    destruct (Hraise (u "caption") (record_of env payload (generated_variants payload r)))
      as [e ->].
    reflexivity.
  - unfold generated_variants. by rewrite length_map, length_seq.
  - intros env' resp'.
    rewrite (post_generate_accepted env' b payload r Hparse Htopic). cbn [fst].
    intros [= <-]. reflexivity.
Qed.

Lemma persistence_failure_absorbed_witness :
  exists variants,
    fst (post_generate (U := ascii_data) env_db_down
           (body_of_topic (u "coffee shop launch")) rng_zero)
    = Http200 {| resp_variants := variants; saved_id := None |}
    /\ List.length variants = 3%nat.
Proof.
  destruct (persistence_failure_absorbed (U := ascii_data) env_db_down
              (body_of_topic (u "coffee shop launch"))
              {| req_topic := u "coffee shop launch"; req_tone := u "friendly";
                 req_platform := u "instagram"; req_length := u "medium";
                 req_include_emojis := true; req_include_hashtags := true;
                 req_variants := 3 |} rng_zero)
    as (Hrun & Hlen & _).
  - vm_compute. reflexivity.
  - literal_neq.
  - intros collection doc. eexists. reflexivity.
  - eexists. split; [exact Hrun | exact Hlen].
Defined.

(** C10. A field the request body omits takes its default: tone
    ["friendly"], platform ["instagram"], length ["medium"], both flags
    true, and three variants. *)
Theorem request_defaults (b : RequestBody) (payload : GenerateRequest) :
  parse_request b = Some payload ->
  (body_tone b = None -> req_tone payload = u "friendly")
  /\ (body_platform b = None -> req_platform payload = u "instagram")
  /\ (body_length b = None -> req_length payload = u "medium")
  /\ (body_include_emojis b = None -> req_include_emojis payload = true)
  /\ (body_include_hashtags b = None -> req_include_hashtags payload = true)
  /\ (body_variants b = None -> req_variants payload = 3%Z).
Proof.
  intros Hparse.
  destruct (parse_request_inv b payload Hparse)
    as (_ & _ & _ & Htone & Hplatform & Hlength & Hemojis & Hhashtags & Hvariants).
  rewrite Htone, Hplatform, Hlength, Hemojis, Hhashtags, Hvariants.
  repeat split; intros ->; reflexivity.
Qed.

Lemma request_defaults_witness :
  parse_request (body_of_topic (u "coffee shop launch"))
  = Some {| req_topic := u "coffee shop launch"; req_tone := u "friendly";
            req_platform := u "instagram"; req_length := u "medium";
            req_include_emojis := true; req_include_hashtags := true;
            req_variants := 3 |}.
Proof.
  destruct (parse_request (body_of_topic (u "coffee shop launch")))
    as [payload|] eqn:Hparse; [|vm_compute in Hparse; discriminate Hparse].
  destruct (request_defaults _ payload Hparse)
    as (Htone & Hplatform & Hlength & Hemojis & Hhashtags & Hvariants).
  destruct (parse_request_inv _ _ Hparse) as (Htopic & _).
  destruct payload as [t tn pf ln ie ih n]. cbn in *.
  rewrite (Htone eq_refl), (Hplatform eq_refl), (Hlength eq_refl),
    (Hemojis eq_refl), (Hhashtags eq_refl), (Hvariants eq_refl).
  injection Htopic as <-. reflexivity.
Defined.

(** C3, as the code has it. With [include_hashtags = false] and a topic
    that holds no ['#'], no returned variant holds a ['#']: without the
    hashtag block, the topic is the only part of a caption that is not fixed
    text of the tables. *)
Theorem no_hash_without_hashtags {U : UnicodeData}
    (env : Environment) (b : RequestBody) (payload : GenerateRequest)
    (r r' : Rng) (resp : GenerateResponse) :
  parse_request b = Some payload ->
  req_include_hashtags payload = false ->
  HASH ∉ req_topic payload ->
  post_generate env b r = (Http200 resp, r') ->
  forall v, v ∈ resp_variants resp -> HASH ∉ v.
Proof.
  intros Hparse Hgate Htopic Hrun v Hv.
  destruct (decide (strip (req_topic payload) = [])) as [Hempty|Hfull].
  - rewrite (post_generate_empty_topic env b payload r Hparse Hempty) in Hrun.
    discriminate Hrun.
  - rewrite (post_generate_accepted env b payload r Hparse Hfull) in Hrun.
    injection Hrun as <- _. cbn [resp_variants] in Hv.
    unfold generated_variants in Hv.
    apply list_elem_of_fmap in Hv as (i & -> & _).
    unfold caption_for. rewrite build_caption_eq. cbn [fst].
    rewrite Hgate, hashtag_block_false, app_nil_r.
    rewrite !elem_of_app. intros [Hin|[Hin|[Hin|Hin]]].
    + by apply (no_hash_prefix _ _ Hin).
    + revert Hin. apply no_hash_literal. vm_compute. reflexivity.
    + apply (no_hash_core _ _ (fun H => Htopic (elem_of_strip _ _ H)) Hin).
    + by apply (no_hash_emoji _ _ Hin).
Qed.

Lemma no_hash_without_hashtags_witness :
  HASH ∉ u "Hey there! new menu done right. Screenshot this if you needed the nudge.".
Proof.
  apply (no_hash_without_hashtags (U := ascii_data) env_db_down body_plain
           {| req_topic := u "new menu"; req_tone := u "friendly";
              req_platform := u "instagram"; req_length := u "medium";
              req_include_emojis := false; req_include_hashtags := false;
              req_variants := 1 |}
           rng_zero (advance 1 rng_zero)
           {| resp_variants :=
                [u "Hey there! new menu done right. Screenshot this if you needed the nudge."];
              saved_id := None |}).
  - vm_compute. reflexivity.
  - reflexivity.
  - apply (bool_decide_unpack _). vm_compute. reflexivity.
  - vm_compute. reflexivity.
  - left.
Defined.

(** C3 as stated fails: the topic is copied into the caption, ['#']
    included. *)
Lemma hashtag_free_counterexample :
  fst (post_generate (U := ascii_data) env_db_down body_hash rng_zero)
  = Http200
      {| resp_variants :=
           [u "Hey there! #1 fan done right. Screenshot this if you needed the nudge."];
         saved_id := None |}
  /\ body_include_hashtags body_hash = Some false
  /\ HASH ∈ u "Hey there! #1 fan done right. Screenshot this if you needed the nudge.".
Proof.
  split; [vm_compute; reflexivity|]. split; [reflexivity|].
  apply (bool_decide_unpack _). vm_compute. reflexivity.
Qed.

(** C6, as the code has it. For a well-formed body, a request is accepted
    only if its topic has at least three characters as sent and is not
    empty once trimmed. A topic of fewer than three characters as sent is
    refused by validation with status 422. A topic of at least three
    characters that trims to nothing is refused by the handler with status
    400 and "Topic is required" when [variants] is valid, and by validation
    with 422 when it is not. In each case no variant has been generated: the
    random source is untouched. *)
Theorem topic_acceptance {U : UnicodeData}
    (env : Environment) (b : RequestBody) (r : Rng) :
  well_formed b = true ->
  (forall resp r',
     post_generate env b r = (Http200 resp, r') ->
     exists t, body_topic b = Some t
       /\ (3 <= List.length t)%nat /\ strip t ≠ [])
  /\ (forall t,
        body_topic b = Some t -> (List.length t < 3)%nat ->
        post_generate env b r = (HttpError 422 None, r))
  /\ (forall t,
        body_topic b = Some t -> (3 <= List.length t)%nat -> strip t = [] ->
        post_generate env b r
        = if (1 <=? default 3 (body_variants b))%Z
             && (default 3 (body_variants b) <=? 10)%Z
          then (HttpError 400 (Some (u "Topic is required")), r)
          else (HttpError 422 None, r)).
Proof.
  intros _. split; [|split].
  - intros resp r' Hrun.
    destruct (parse_request b) as [payload|] eqn:Hparse.
    + destruct (parse_request_inv b payload Hparse) as (Htopic & Hlen & _).
      exists (req_topic payload). split; [exact Htopic|]. split; [exact Hlen|].
      intros Hempty.
      rewrite (post_generate_empty_topic env b payload r Hparse Hempty) in Hrun.
      discriminate Hrun.
    + rewrite (post_generate_invalid env b r Hparse) in Hrun. discriminate Hrun.
  - intros t Htopic Hshort. apply post_generate_invalid.
    destruct (parse_request b) as [payload|] eqn:Hparse; [|reflexivity].
    destruct (parse_request_inv b payload Hparse) as (Htopic' & Hlen & _).
    rewrite Htopic in Htopic'. injection Htopic' as ->. lia.
  - intros t Htopic Hlen Hempty.
    destruct (parse_request b) as [payload|] eqn:Hparse.
    + destruct (parse_request_inv b payload Hparse)
        as (Htopic' & _ & [Hlow Hhigh] & _ & _ & _ & _ & _ & Hvariants).
      rewrite Htopic in Htopic'. injection Htopic' as ->.
      rewrite <- Hvariants.
      apply Z.leb_le in Hlow. apply Z.leb_le in Hhigh. rewrite Hlow, Hhigh.
      exact (post_generate_empty_topic env b payload r Hparse Hempty).
    + rewrite (post_generate_invalid env b r Hparse).
      unfold parse_request in Hparse. rewrite Htopic in Hparse.
      apply Nat.leb_le in Hlen. cbv zeta in Hparse. rewrite Hlen in Hparse.
      cbn [andb] in Hparse.
      destruct ((1 <=? default 3 (body_variants b))%Z
                && (default 3 (body_variants b) <=? 10)%Z); [discriminate Hparse|].
      reflexivity.
Qed.

Lemma topic_acceptance_witness :
  post_generate (U := ascii_data) env_db_down (body_of_topic (u "    ")) rng_zero
  = (HttpError 400 (Some (u "Topic is required")), rng_zero).
Proof.
  assert (well_formed (body_of_topic (u "    ")) = true) as Hformed
    by (vm_compute; reflexivity).
  destruct (topic_acceptance (U := ascii_data) env_db_down
              (body_of_topic (u "    ")) rng_zero Hformed) as (_ & _ & Hblank).
  rewrite (Hblank (u "    ")).
  - reflexivity.
  - reflexivity.
  - vm_compute. lia.
  - vm_compute. reflexivity.
Defined.

(** C6 as stated fails: the topic [" a "] has three characters as sent and
    one once trimmed, and the request is answered with three variants. *)
Lemma short_trimmed_topic_counterexample :
  strip (u " a ") = u "a"
  /\ List.length (strip (u " a ")) = 1%nat
  /\ exists resp,
       fst (post_generate (U := ascii_data) env_db_down (body_of_topic (u " a ")) rng_zero)
       = Http200 resp
       /\ List.length (resp_variants resp) = 3%nat
       /\ resp_variants resp !! 0%nat
          = Some ((u "Hey there! a done right. Screenshot this if you needed the nudge. 😊 ✨"
                   ++ [NEWLINE; NEWLINE])
                  ++ u "#a #instadaily #trending #reels #life #creative #goals").
Proof.
  split; [vm_compute; reflexivity|]. split; [vm_compute; reflexivity|].
  eexists. split; [vm_compute; reflexivity|].
  split; vm_compute; reflexivity.
Qed.

(** ** Further properties of the selector *)

Lemma is_word_spec (w : pystr) :
  is_word w = true <-> w ≠ [] /\ forall c, c ∈ w -> is_space c = false.
Proof.
  destruct w as [|c w]; [split; [discriminate | intros [Hne _]; by destruct Hne]|].
  unfold is_word. rewrite forallb_forall. split.
  - intros Hall. split; [discriminate|].
    intros d Hd. apply list_elem_of_In, Hall in Hd. by apply negb_true_iff.
  - intros [_ Hall] d Hd. apply negb_true_iff, Hall, list_elem_of_In, Hd.
Qed.

Lemma split_from_word (w cur rest : pystr) :
  (forall c, c ∈ w -> is_space c = false) ->
  split_from cur (w ++ rest) = split_from (cur ++ w) rest.
Proof.
  revert cur. induction w as [|c w IH]; intros cur Hw.
  - by rewrite app_nil_r.
  - simpl. rewrite (Hw c) by left.
    rewrite IH by (intros d Hd; apply Hw; by right).
    by rewrite <- app_assoc.
Qed.

Lemma split_from_space (cur s : pystr) :
  cur ≠ [] -> split_from cur (32 :: s) = cur :: split_from [] s.
Proof. intros Hcur. by destruct cur. Qed.

(** Splitting a line of space-joined words gives the words back. *)
Lemma split_join_words (words : list pystr) :
  Forall (fun w => is_word w = true) words ->
  split (join [32] words) = words.
Proof.
  unfold split. induction words as [|p rest IH]; [done|].
  intros Hall. apply Forall_cons in Hall as [Hp Hrest].
  apply is_word_spec in Hp as [Hne Hp].
  destruct rest as [|q rest].
  - cbn [join]. rewrite <- (app_nil_r p) at 1. rewrite split_from_word by done.
    cbn [app split_from]. by destruct p.
  - change (join [32] (p :: q :: rest)) with (p ++ 32 :: join [32] (q :: rest)).
    rewrite split_from_word by done. cbn [app].
    rewrite split_from_space by done. by rewrite IH.
Qed.

Lemma split_from_words (s cur : pystr) (w : pystr) :
  (forall c, c ∈ cur -> is_space c = false) ->
  w ∈ split_from cur s -> is_word w = true.
Proof.
  revert cur. induction s as [|c s IH]; intros cur Hcur; simpl.
  - destruct cur as [|d cur]; [by intros ?%not_elem_of_nil|].
    intros ->%list_elem_of_singleton. apply is_word_spec. split; [done|exact Hcur].
  - destruct (is_space c) eqn:Hc.
    + destruct cur as [|d cur].
      * apply IH. by intros ? ?%not_elem_of_nil.
      * intros [->|Hw]%elem_of_cons.
        -- apply is_word_spec. split; [done|exact Hcur].
        -- revert Hw. apply IH. by intros ? ?%not_elem_of_nil.
    + apply IH. intros d [Hd| ->%list_elem_of_singleton]%elem_of_app; [by apply Hcur|done].
Qed.

(** Every token of [split] is a word. *)
Lemma split_words (s w : pystr) : w ∈ split s -> is_word w = true.
Proof. apply split_from_words. by intros ? ?%not_elem_of_nil. Qed.

Lemma split_from_chars (s cur w : pystr) (c : codepoint) :
  w ∈ split_from cur s -> c ∈ w -> c ∈ cur \/ c ∈ s.
Proof.
  revert cur. induction s as [|d s IH]; intros cur; simpl.
  - destruct cur as [|e cur]; [by intros ?%not_elem_of_nil|].
    intros ->%list_elem_of_singleton Hc. by left.
  - destruct (is_space d).
    + destruct cur as [|e cur].
      * intros Hw Hc. destruct (IH [] Hw Hc) as [Hin|Hin];
          [by apply not_elem_of_nil in Hin | right; by right].
      * intros [->|Hw]%elem_of_cons Hc; [by left|].
        destruct (IH [] Hw Hc) as [Hin|Hin];
          [by apply not_elem_of_nil in Hin | right; by right].
    + intros Hw Hc. destruct (IH (cur ++ [d]) Hw Hc) as [Hin|Hin].
      * apply elem_of_app in Hin as [Hin| ->%list_elem_of_singleton];
          [by left | right; left].
      * right. by right.
Qed.

(** The characters of a token are characters of the string. *)
Lemma split_chars (s w : pystr) (c : codepoint) : w ∈ split s -> c ∈ w -> c ∈ s.
Proof.
  intros Hw Hc. destruct (split_from_chars s [] w c Hw Hc) as [Hin|Hin]; [|done].
  by apply not_elem_of_nil in Hin.
Qed.

Lemma table_tags_shape :
  forallb (forallb (fun t => is_word t && bool_decide (head t = Some HASH)
                             && forallb (fun c => negb (bool_decide (c ∈ glyph_codepoints))) t))
    (GENERIC_HASHTAGS :: map snd PLATFORM_HASHTAGS) = true.
Proof. vm_compute. reflexivity. Qed.

Lemma table_tag_shape (platform length t : pystr) :
  t ∈ base_tags platform ++ generic_tags length ->
  is_word t = true /\ head t = Some HASH
  /\ forall c, c ∈ t -> c ∉ glyph_codepoints.
Proof.
  intros Ht. pose proof table_tags_shape as Hall. rewrite forallb_forall in Hall.
  assert (exists tags, In tags (GENERIC_HASHTAGS :: map snd PLATFORM_HASHTAGS) /\ t ∈ tags)
    as (tags & Htags & Hin).
  { apply elem_of_app in Ht as [Ht|Ht].
    - unfold base_tags, dict_get in Ht. apply elem_of_take_elem_of in Ht.
      destruct (dict_lookup platform PLATFORM_HASHTAGS) as [tags|] eqn:Hlookup;
        [|by apply not_elem_of_nil in Ht].
      exists tags. split; [|exact Ht].
      right. apply list_elem_of_In. by apply (dict_lookup_elem_of platform).
    - exists GENERIC_HASHTAGS. split; [by left|].
      unfold generic_tags in Ht. by apply elem_of_take_elem_of in Ht. }
  apply Hall in Htags. rewrite forallb_forall in Htags.
  apply list_elem_of_In, Htags in Hin.
  apply andb_true_iff in Hin as [Hin Hglyph]. apply andb_true_iff in Hin as [Hword Hhead].
  split; [exact Hword|]. split; [by apply bool_decide_eq_true in Hhead|].
  intros c Hc. rewrite forallb_forall in Hglyph.
  apply list_elem_of_In, Hglyph, negb_true_iff in Hc.
  by apply bool_decide_eq_false in Hc.
Qed.

Section SelectorProperties.
Context {U : UnicodeData}.

Lemma spec_selected_tags_eq (topic platform length : pystr) (cap : nat) :
  spec_selected_tags topic platform length cap
  = take cap (dedup_first (topic_tags topic ++ base_tags platform ++ generic_tags length)).
Proof.
  unfold spec_selected_tags, topic_tags, base_tags, generic_tags, dict_get.
  destruct (decide (length = u "short")); reflexivity.
Qed.

Lemma suggest_hashtags_tags (topic platform length : pystr) :
  suggest_hashtags (S := gset pystr) topic platform true length
  = join (u " ") (spec_selected_tags topic platform length (tag_limit length)).
Proof. by rewrite spec_selected_tags_eq, (suggest_hashtags_closed gset_laws). Qed.

Lemma topic_tag_inv (topic t : pystr) :
  t ∈ topic_tags topic ->
  exists w, w ∈ split topic /\ isalpha w = true /\ t = HASH :: str_lower w.
Proof.
  unfold topic_tags. intros Ht%elem_of_take_elem_of.
  apply list_elem_of_fmap in Ht as (w & -> & Hw).
  apply list_elem_of_In, filter_In in Hw as [Hw Halpha].
  exists w. split; [by apply list_elem_of_In|]. split; [exact Halpha|reflexivity].
Qed.

Lemma selected_tag_candidate (topic platform length : pystr) (cap : nat) (t : pystr) :
  t ∈ spec_selected_tags topic platform length cap ->
  t ∈ topic_tags topic \/ t ∈ base_tags platform ++ generic_tags length.
Proof.
  rewrite spec_selected_tags_eq. intros Ht%elem_of_take_elem_of.
  apply (proj1 (elem_of_dedup_first _ _)) in Ht. by apply elem_of_app in Ht.
Qed.

End SelectorProperties.

(** The ASCII database maps letters to letters. *)
Lemma ascii_letters_checked :
  forallb (fun c => implb (ascii_isalpha c)
                      (negb (is_space (ascii_lower_cp c))
                       && negb (bool_decide (ascii_lower_cp c ∈ glyph_codepoints))))
    (map N.of_nat (seq 0 128)) = true.
Proof. vm_compute. reflexivity. Qed.

Lemma ascii_lower_letter (c : codepoint) :
  ascii_isalpha c = true ->
  is_space (ascii_lower_cp c) = false /\ ascii_lower_cp c ∉ glyph_codepoints.
Proof.
  intros Halpha.
  assert (c < 128) as Hsmall.
  { unfold ascii_isalpha in Halpha.
    apply orb_true_iff in Halpha as [H|H]; apply andb_true_iff in H as [_ H];
      apply N.leb_le in H; lia. }
  pose proof ascii_letters_checked as Hall. rewrite forallb_forall in Hall.
  specialize (Hall c). rewrite Halpha in Hall. simpl implb in Hall.
  assert (In c (map N.of_nat (seq 0 128))) as Hin.
  { apply in_map_iff. exists (N.to_nat c). split; [apply N2Nat.id|].
    apply in_seq. lia. }
  apply Hall, andb_true_iff in Hin as [Hspace Hglyph].
  apply negb_true_iff in Hspace. apply negb_true_iff, bool_decide_eq_false in Hglyph.
  done.
Qed.

Lemma ascii_lower_word (w : pystr) (c : codepoint) :
  isalpha (H := ascii_data) w = true ->
  c ∈ str_lower (UnicodeData := ascii_data) w ->
  is_space c = false /\ c ∉ glyph_codepoints.
Proof.
  intros Halpha Hc. simpl in Hc. apply list_elem_of_fmap in Hc as (d & -> & Hd).
  apply ascii_lower_letter.
  destruct w as [|e w]; [discriminate Halpha|].
  unfold isalpha in Halpha. rewrite forallb_forall in Halpha.
  apply Halpha. by apply list_elem_of_In.
Qed.

(** X1. [choose] on an empty list answers the empty string without a
    draw; on any other list it answers a member of the list and takes
    exactly one draw. *)
Theorem choose_draws_member (arr : list pystr) (r : Rng) :
  (arr = [] -> choose arr r = ([], r))
  /\ (arr ≠ [] -> fst (choose arr r) ∈ arr /\ snd (choose arr r) = advance 1 r).
Proof.
  split.
  - intros ->. reflexivity.
  - intros Hne. destruct arr as [|p arr]; [done|]. unfold choose, randbelow.
    cbn [fst snd]. split; [|reflexivity].
    apply list_elem_of_In, nth_In, Nat.mod_upper_bound. simpl. lia.
Qed.

Lemma choose_draws_member_witness :
  fst (choose [u "Elevate:"; u "Curated:"] rng_zero) ∈ [u "Elevate:"; u "Curated:"]
  /\ snd (choose [u "Elevate:"; u "Curated:"] rng_zero) = advance 1 rng_zero.
Proof.
  apply (proj2 (choose_draws_member [u "Elevate:"; u "Curated:"] rng_zero)).
  intros Heq. discriminate Heq.
Defined.

(** X2. Whatever the length string, the line of the open selector holds
    at least three and at most [tag_limit] tags (4, 7 or 10, never more than
    10), and at least five for every length other than short. *)
Theorem hashtag_count_bounds {U : UnicodeData} (topic platform length : pystr) :
  let tags := spec_selected_tags topic platform length (tag_limit length) in
  suggest_hashtags (S := gset pystr) topic platform true length = join (u " ") tags
  /\ (3 <= List.length tags <= tag_limit length)%nat
  /\ (tag_limit length <= 10)%nat
  /\ (length ≠ u "short" -> 5 <= List.length tags)%nat.
Proof.
  cbv zeta. split; [apply suggest_hashtags_tags|].
  rewrite spec_selected_tags_eq, length_take.
  pose proof (tag_limit_ge length) as Hlimit.
  pose proof (length_generic_tags length) as Hgeneric.
  assert (List.length (generic_tags length)
          <= List.length (dedup_first
               (topic_tags topic ++ base_tags platform ++ generic_tags length)))%nat
    as Hdedup.
  { apply submseteq_length, NoDup_submseteq; [apply generic_tags_NoDup|].
    intros x Hx. apply elem_of_dedup_first. rewrite !elem_of_app. by right; right. }
  split; [lia|]. split.
  - unfold tag_limit. repeat case_decide; lia.
  - intros Hshort.
    assert (List.length (generic_tags length) = 5%nat) as Hfive.
    { unfold generic_tags.
      rewrite (decide_False (P := length = u "short")) by assumption.
      vm_compute. reflexivity. }
    assert (7 <= tag_limit length)%nat.
    { unfold tag_limit.
      rewrite (decide_False (P := length = u "short")) by assumption.
      case_decide; lia. }
    lia.
Qed.

Lemma hashtag_count_bounds_witness :
  (5 <= List.length (spec_selected_tags (U := ascii_data)
                       (u "12 34") (u "nowhere") (u "medium") (tag_limit (u "medium"))))%nat.
Proof.
  apply (hashtag_count_bounds (U := ascii_data) (u "12 34") (u "nowhere") (u "medium")).
  literal_neq.
Defined.

(** X3. Every tag of the line begins with ['#'] and is a topic-derived
    tag, one of the first three tags of the platform or a generic tag; for a
    platform that is not in the table it is a topic-derived or a generic
    tag. *)
Theorem selected_tags_are_hashtags {U : UnicodeData}
    (topic platform length t : pystr) :
  t ∈ spec_selected_tags topic platform length (tag_limit length) ->
  head t = Some HASH
  /\ (t ∈ topic_tags topic \/ t ∈ base_tags platform \/ t ∈ generic_tags length)
  /\ (dict_lookup platform PLATFORM_HASHTAGS = None ->
      t ∈ topic_tags topic \/ t ∈ GENERIC_HASHTAGS).
Proof.
  intros Ht. apply selected_tag_candidate in Ht.
  assert (t ∈ topic_tags topic \/ t ∈ base_tags platform \/ t ∈ generic_tags length)
    as Hfrom.
  { destruct Ht as [Ht|Ht]; [by left|]. apply elem_of_app in Ht. by right. }
  split; [|split; [exact Hfrom|]].
  - destruct Ht as [Ht|Ht].
    + apply topic_tag_inv in Ht as (w & _ & _ & ->). reflexivity.
    + by apply (table_tag_shape platform length).
  - intros Hnone. destruct Hfrom as [Ht'|[Ht'|Ht']]; [by left| |].
    + unfold base_tags, dict_get in Ht'. rewrite Hnone in Ht'.
      by apply elem_of_take_elem_of, not_elem_of_nil in Ht'.
    + right. unfold generic_tags in Ht'. by apply elem_of_take_elem_of in Ht'.
Qed.

Lemma selected_tags_are_hashtags_witness :
  head (u "#fyp") = Some HASH
  /\ (u "#fyp" ∈ topic_tags (U := ascii_data) (u "fresh bread")
      \/ u "#fyp" ∈ base_tags (u "tiktok")
      \/ u "#fyp" ∈ generic_tags (u "long")).
Proof.
  destruct (selected_tags_are_hashtags (U := ascii_data)
              (u "fresh bread") (u "tiktok") (u "long") (u "#fyp"))
    as (Hhead & Hfrom & _).
  - apply (bool_decide_unpack _). vm_compute. reflexivity.
  - split; [exact Hhead | exact Hfrom].
Defined.

(** X4. The topic contributes at most three tags, and none of them is
    ever cut off: the line starts with the distinct topic-derived tags, in
    the order of the topic. *)
Theorem topic_tags_come_first {U : UnicodeData} (topic platform length : pystr) :
  (List.length (topic_tags topic) <= 3)%nat
  /\ dedup_first (topic_tags topic)
       `prefix_of` spec_selected_tags topic platform length (tag_limit length).
Proof.
  split; [apply length_topic_tags|].
  rewrite spec_selected_tags_eq, dedup_first_app, take_app.
  pose proof (tag_limit_ge length) as Hlimit.
  pose proof (length_topic_tags topic) as Htopic.
  pose proof (length_dedup_first (topic_tags topic)) as Hdedup.
  rewrite (take_ge (dedup_first (topic_tags topic))) by lia.
  by eexists.
Qed.

(** X5. When lower-casing an alphabetic token yields no whitespace,
    splitting the line at whitespace gives back exactly its tags, so the
    words of the line are pairwise distinct and as many as the tags. *)
Theorem hashtag_line_splits {U : UnicodeData} (topic platform length : pystr) :
  (forall w c, isalpha w = true -> c ∈ str_lower w -> is_space c = false) ->
  split (suggest_hashtags (S := gset pystr) topic platform true length)
    = spec_selected_tags topic platform length (tag_limit length)
  /\ NoDup (split (suggest_hashtags (S := gset pystr) topic platform true length)).
Proof.
  intros Hlower.
  assert (split (suggest_hashtags (S := gset pystr) topic platform true length)
          = spec_selected_tags topic platform length (tag_limit length)) as Hsplit.
  { rewrite suggest_hashtags_tags. change (u " ") with [32].
    apply split_join_words, Forall_forall. intros t Ht.
    apply selected_tag_candidate in Ht as [Ht|Ht].
    - apply topic_tag_inv in Ht as (w & _ & Halpha & ->).
      apply is_word_spec. split; [done|].
      intros c [->|Hc]%elem_of_cons; [reflexivity|]. by apply (Hlower w).
    - by apply (table_tag_shape platform length). }
  split; [exact Hsplit|]. rewrite Hsplit, spec_selected_tags_eq.
  eapply sublist_NoDup; [apply NoDup_dedup_first | apply sublist_take].
Qed.

Lemma hashtag_line_splits_witness :
  split (suggest_hashtags (U := ascii_data) (S := gset pystr)
           (u "Coffee shop") (u "youtube") true (u "short"))
  = spec_selected_tags (U := ascii_data) (u "Coffee shop") (u "youtube") (u "short")
      (tag_limit (u "short")).
Proof.
  apply (hashtag_line_splits (U := ascii_data) (u "Coffee shop") (u "youtube") (u "short")).
  intros w c Halpha Hc. exact (proj1 (ascii_lower_word w c Halpha Hc)).
Defined.

(** ** Further properties of the assembler *)

Lemma tone_styles_shape :
  forallb (fun p => (List.length (prefixes p) =? 4)%nat
                    && (2 <=? List.length (emojis p))%nat
                    && forallb (forallb (fun c => negb (bool_decide (c ∈ glyph_codepoints))))
                         (prefixes p))
    (tone_friendly :: map snd TONE_STYLES) = true.
Proof. vm_compute. reflexivity. Qed.

Lemma resolved_profile_shape (tone : pystr) :
  List.length (prefixes (resolved_profile tone)) = 4%nat
  /\ (2 <= List.length (emojis (resolved_profile tone)))%nat
  /\ forall p c, p ∈ prefixes (resolved_profile tone) -> c ∈ p -> c ∉ glyph_codepoints.
Proof.
  pose proof tone_styles_shape as Hall. rewrite forallb_forall in Hall.
  assert (In (resolved_profile tone) (tone_friendly :: map snd TONE_STYLES)) as Hin.
  { unfold resolved_profile.
    destruct (dict_lookup tone TONE_STYLES) as [p|] eqn:Hp; [|by left].
    right. apply list_elem_of_In. by apply (dict_lookup_elem_of tone). }
  apply Hall in Hin. apply andb_true_iff in Hin as [Hin Hglyph].
  apply andb_true_iff in Hin as [Hfour Htwo].
  apply Nat.eqb_eq in Hfour. apply Nat.leb_le in Htwo.
  split; [exact Hfour|]. split; [exact Htwo|].
  intros p c Hp Hc. rewrite forallb_forall in Hglyph.
  apply list_elem_of_In, Hglyph in Hp. rewrite forallb_forall in Hp.
  apply list_elem_of_In, Hp, negb_true_iff in Hc.
  by apply bool_decide_eq_false in Hc.
Qed.

Lemma no_glyph_literal (s : pystr) :
  forallb (fun c => negb (bool_decide (c ∈ glyph_codepoints))) s = true ->
  forall c, c ∈ s -> c ∉ glyph_codepoints.
Proof.
  intros Hall c Hc. rewrite forallb_forall in Hall.
  apply list_elem_of_In, Hall, negb_true_iff in Hc.
  by apply bool_decide_eq_false in Hc.
Qed.

(** X6. The final [strip] of [build_caption] removes nothing: the caption
    returned is the assembled string itself (prefix, space, body, emoji
    suffix, hashtag block), which is never empty and never starts or ends
    with whitespace, whatever the topic. *)
Theorem caption_is_trimmed {U : UnicodeData} (topic tone platform length : pystr)
    (include_emojis include_hashtags : bool) (r : Rng) :
  let assembled :=
    unstripped_caption topic tone platform length include_emojis include_hashtags r in
  let caption :=
    fst (build_caption topic tone platform length include_emojis include_hashtags r) in
  caption = strip assembled
  /\ strip assembled = assembled
  /\ caption = assembled
  /\ assembled ≠ []
  /\ starts_solid assembled = true
  /\ ends_solid assembled = true.
Proof.
  cbv zeta.
  assert (fst (build_caption topic tone platform length include_emojis include_hashtags r)
          = strip (unstripped_caption topic tone platform length
                     include_emojis include_hashtags r)) as Hcaption.
  { unfold build_caption, unstripped_caption.
    by destruct (choose (prefixes (dict_get tone TONE_STYLES tone_friendly)) r). }
  assert (unstripped_caption topic tone platform length include_emojis include_hashtags r
          = drawn_prefix tone r ++ u " " ++ core_text topic length
              ++ emoji_suffix tone include_emojis
              ++ hashtag_block topic platform include_hashtags length) as Hassembled.
  { unfold unstripped_caption. rewrite dict_get_tone, choose_prefix.
    unfold emoji_suffix, hashtag_block. f_equal. f_equal. f_equal. f_equal.
    - destruct include_emojis; [|reflexivity].
      by destruct (emojis (resolved_profile tone)).
    - by destruct (suggest_hashtags topic platform include_hashtags length). }
  assert (starts_solid (unstripped_caption topic tone platform length
                          include_emojis include_hashtags r) = true) as Hstart.
  { rewrite Hassembled. apply starts_solid_app.
    destruct (profile_prefixes tone) as [_ Hall].
    by apply Hall, drawn_prefix_elem_of. }
  assert (ends_solid (unstripped_caption topic tone platform length
                        include_emojis include_hashtags r) = true) as Hend.
  { rewrite Hassembled, app_assoc. apply ends_solid_app, caption_tail_solid. }
  assert (strip (unstripped_caption topic tone platform length
                   include_emojis include_hashtags r)
          = unstripped_caption topic tone platform length
              include_emojis include_hashtags r) as Hstrip
    by (by apply strip_solid).
  split; [exact Hcaption|]. split; [exact Hstrip|].
  split; [by rewrite Hcaption|]. split; [by apply ends_solid_nonempty|].
  split; [exact Hstart | exact Hend].
Qed.

(** X7. With [include_emojis = true] the body is followed by a space and
    exactly two glyphs, the first two of the resolved profile, whatever the
    random draw. *)
Theorem emoji_suffix_two_glyphs {U : UnicodeData} (topic tone platform length : pystr)
    (include_hashtags : bool) (r : Rng) :
  exists e1 e2 others,
    emojis (resolved_profile tone) = e1 :: e2 :: others
    /\ fst (build_caption topic tone platform length true include_hashtags r)
       = drawn_prefix tone r ++ u " " ++ core_text topic length
           ++ (u " " ++ e1 ++ u " " ++ e2)
           ++ hashtag_block topic platform include_hashtags length.
Proof.
  destruct (resolved_profile_shape tone) as (_ & Htwo & _).
  destruct (emojis (resolved_profile tone)) as [|e1 [|e2 others]] eqn:He;
    [simpl in Htwo; lia | simpl in Htwo; lia |].
  exists e1, e2, others. split; [reflexivity|].
  rewrite build_caption_eq. cbn [fst]. unfold emoji_suffix. rewrite He. reflexivity.
Qed.

(** X8. With [include_emojis = false] a caption holds no glyph of any
    tone profile, provided the topic holds none and lower-casing an
    alphabetic token yields none. *)
Theorem no_glyph_without_emojis {U : UnicodeData} (topic tone platform length : pystr)
    (include_hashtags : bool) (r : Rng) :
  (forall c, c ∈ topic -> c ∉ glyph_codepoints) ->
  (forall w c, isalpha w = true -> c ∈ str_lower w -> c ∉ glyph_codepoints) ->
  forall c,
    c ∈ fst (build_caption topic tone platform length false include_hashtags r) ->
    c ∉ glyph_codepoints.
Proof.
  intros Htopic Hlower c. rewrite build_caption_eq. cbn [fst].
  change (emoji_suffix tone false) with ([] : pystr). rewrite app_nil_l.
  rewrite !elem_of_app. intros [Hc|[Hc|[Hc|Hc]]].
  - destruct (resolved_profile_shape tone) as (_ & _ & Hprefix).
    exact (Hprefix _ c (drawn_prefix_elem_of tone r) Hc).
  - revert c Hc. apply no_glyph_literal. vm_compute. reflexivity.
  - unfold core_text in Hc.
    repeat case_decide; apply elem_of_app in Hc as [Hc|Hc];
      try (by apply Htopic); revert c Hc; apply no_glyph_literal;
      vm_compute; reflexivity.
  - destruct include_hashtags; [|by apply not_elem_of_nil in Hc].
    rewrite hashtag_block_true, suggest_hashtags_tags in Hc.
    apply elem_of_app in Hc as [Hc|Hc].
    { revert c Hc. apply no_glyph_literal. vm_compute. reflexivity. }
    apply elem_of_join in Hc as [Hc|(t & Ht & Hc)].
    { revert c Hc. apply no_glyph_literal. vm_compute. reflexivity. }
    apply selected_tag_candidate in Ht as [Ht|Ht].
    + apply topic_tag_inv in Ht as (w & _ & Halpha & ->).
      apply elem_of_cons in Hc as [->|Hc].
      * apply (bool_decide_unpack _). vm_compute. reflexivity.
      * by apply (Hlower w).
    + by apply (table_tag_shape platform length t Ht).
Qed.

Lemma no_glyph_without_emojis_witness :
  Forall (fun c => c ∉ glyph_codepoints)
    (fst (build_caption (U := ascii_data) (u "fresh bread") (u "witty") (u "tiktok")
            (u "long") false true rng_zero)).
Proof.
  apply Forall_forall.
  apply (no_glyph_without_emojis (U := ascii_data)).
  - apply no_glyph_literal. vm_compute. reflexivity.
  - intros w c Halpha Hc. exact (proj2 (ascii_lower_word w c Halpha Hc)).
Defined.

(** ** Further properties of the generation endpoint *)

Lemma lstrip_nil_iff (s : pystr) : lstrip s = [] <-> Forall (fun c => is_space c = true) s.
Proof.
  induction s as [|c s IH]; simpl; [by split; [constructor|]|].
  destruct (is_space c) eqn:Hc.
  - rewrite IH. split; [by constructor|]. by intros [_ ?]%Forall_cons.
  - split; [discriminate|]. intros [Hsp _]%Forall_cons. congruence.
Qed.

Lemma lstrip_head (s : pystr) : lstrip s = [] \/ starts_solid (lstrip s) = true.
Proof.
  induction s as [|c s IH]; simpl; [by left|].
  destruct (is_space c) eqn:Hc; [exact IH|]. right. simpl. by rewrite Hc.
Qed.

(** A string trims to nothing exactly when it is whitespace throughout. *)
Lemma strip_nil_iff (s : pystr) : strip s = [] <-> Forall (fun c => is_space c = true) s.
Proof.
  rewrite <- lstrip_nil_iff. unfold strip, rstrip. split.
  - intros Hnil. destruct (lstrip_head s) as [Hs|Hs]; [exact Hs|].
    apply (f_equal (@rev _)) in Hnil. rewrite rev_involutive in Hnil. simpl in Hnil.
    apply lstrip_nil_iff in Hnil.
    destruct (lstrip s) as [|c t]; [done|]. simpl in Hs.
    rewrite Forall_forall in Hnil.
    rewrite (Hnil c) in Hs; [discriminate Hs|].
    apply list_elem_of_In, in_rev. rewrite rev_involutive. by left.
  - intros ->. reflexivity.
Qed.

(** X9. The variants of one response differ at most in their prefix: each
    is a prefix of the resolved tone profile followed by one common rest.
    As a profile has four prefixes, a response holds at most four distinct
    variants. *)
Theorem variants_share_all_but_prefix {U : UnicodeData}
    (env : Environment) (b : RequestBody) (payload : GenerateRequest)
    (r r' : Rng) (resp : GenerateResponse) :
  parse_request b = Some payload ->
  post_generate env b r = (Http200 resp, r') ->
  exists rest,
    (forall v, v ∈ resp_variants resp ->
       exists p, p ∈ prefixes (resolved_profile (str_lower (req_tone payload)))
                 /\ v = p ++ rest)
    /\ (forall distinct,
          NoDup distinct -> (forall v, v ∈ distinct -> v ∈ resp_variants resp) ->
          (List.length distinct <= 4)%nat).
Proof.
  intros Hparse Hrun.
  destruct (decide (strip (req_topic payload) = [])) as [Hempty|Hfull].
  { rewrite (post_generate_empty_topic env b payload r Hparse Hempty) in Hrun.
    discriminate Hrun. }
  rewrite (post_generate_accepted env b payload r Hparse Hfull) in Hrun.
  injection Hrun as <- _. cbn [resp_variants].
  set (tone := str_lower (req_tone payload)).
  set (rest := u " " ++ core_text (strip (req_topic payload)) (str_lower (req_length payload))
                 ++ emoji_suffix tone (req_include_emojis payload)
                 ++ hashtag_block (strip (req_topic payload))
                      (str_lower (req_platform payload))
                      (req_include_hashtags payload) (str_lower (req_length payload))).
  assert (forall v, v ∈ generated_variants payload r ->
            exists p, p ∈ prefixes (resolved_profile tone) /\ v = p ++ rest) as Hshape.
  { intros v Hv. unfold generated_variants in Hv.
    apply list_elem_of_fmap in Hv as (i & -> & _).
    exists (drawn_prefix tone (advance i r)). split; [apply drawn_prefix_elem_of|].
    unfold caption_for. by rewrite build_caption_eq. }
  exists rest. split; [exact Hshape|].
  intros distinct Hnodup Hsub.
  destruct (resolved_profile_shape tone) as (Hfour & _).
  rewrite <- Hfour, <- (length_map (fun p => p ++ rest) (prefixes (resolved_profile tone))).
  apply submseteq_length, NoDup_submseteq; [exact Hnodup|].
  intros v Hv. destruct (Hshape v (Hsub v Hv)) as (p & Hp & ->).
  apply list_elem_of_fmap. by exists p.
Qed.

Lemma variants_share_all_but_prefix_witness :
  exists rest,
    forall v,
      v ∈ generated_variants (U := ascii_data)
            {| req_topic := u "fresh bread"; req_tone := u "Bold";
               req_platform := u "instagram"; req_length := u "medium";
               req_include_emojis := true; req_include_hashtags := true;
               req_variants := 3 |} rng_zero ->
      exists p, p ∈ prefixes (resolved_profile (u "bold")) /\ v = p ++ rest.
Proof.
  destruct (variants_share_all_but_prefix (U := ascii_data) env_db_down
              {| body_topic := Some (u "fresh bread"); body_tone := Some (u "Bold");
                 body_platform := None; body_length := None;
                 body_include_emojis := None; body_include_hashtags := None;
                 body_variants := None |}
              {| req_topic := u "fresh bread"; req_tone := u "Bold";
                 req_platform := u "instagram"; req_length := u "medium";
                 req_include_emojis := true; req_include_hashtags := true;
                 req_variants := 3 |}
              rng_zero (advance 3 rng_zero)
              {| resp_variants :=
                   generated_variants (U := ascii_data)
                     {| req_topic := u "fresh bread"; req_tone := u "Bold";
                        req_platform := u "instagram"; req_length := u "medium";
                        req_include_emojis := true; req_include_hashtags := true;
                        req_variants := 3 |} rng_zero;
                 saved_id := None |})
    as (rest & Hshape & _).
  - vm_compute. reflexivity.
  - vm_compute. reflexivity.
  - exists rest. exact Hshape.
Defined.

Lemma parse_request_refuses (b : RequestBody) :
  parse_request b = None ->
  body_topic b = None
  \/ (exists t, body_topic b = Some t /\ (List.length t < 3)%nat)
  \/ ~ (1 <= default 3 (body_variants b) <= 10)%Z.
Proof.
  unfold parse_request. destruct (body_topic b) as [t|]; [|by left]. cbv zeta.
  destruct (Nat.leb_spec 3 (List.length t)) as [Hlen|Hlen];
    [|intros _; right; left; by exists t].
  destruct (Z.leb_spec 1 (default 3%Z (body_variants b))) as [Hlow|Hlow];
    [|intros _; right; right; lia].
  destruct (Z.leb_spec (default 3%Z (body_variants b)) 10) as [Hhigh|Hhigh];
    [discriminate|intros _; right; right; lia].
Qed.

(** X11. For a well-formed body the endpoint answers 200, 422 or 400 and
    nothing else. It answers 422 only when the body has no topic, a topic of
    fewer than three characters as sent or [variants] outside 1..10; it
    answers 400 with "Topic is required" only when the topic has at least
    three characters, all of them whitespace, and [variants] is valid; in
    both cases no draw is taken. It answers 200 only when the topic has at
    least three characters, not all whitespace, and [variants] is valid; the
    response then carries as many variants as requested, between 1 and 10,
    and one draw per variant has been taken. *)
Theorem post_generate_status {U : UnicodeData}
    (env : Environment) (b : RequestBody) (r : Rng) :
  well_formed b = true ->
  match post_generate env b r with
  | (Http200 resp, r') =>
      Z.of_nat (List.length (resp_variants resp)) = default 3%Z (body_variants b)
      /\ (1 <= List.length (resp_variants resp) <= 10)%nat
      /\ r' = advance (List.length (resp_variants resp)) r
      /\ exists t,
           body_topic b = Some t /\ (3 <= List.length t)%nat
           /\ ~ Forall (fun c => is_space c = true) t
  | (HttpError code detail, r') =>
      r' = r
      /\ ((code = 422%Z /\ detail = None
           /\ (body_topic b = None
               \/ (exists t, body_topic b = Some t /\ (List.length t < 3)%nat)
               \/ ~ (1 <= default 3 (body_variants b) <= 10)%Z))
          \/ (code = 400%Z /\ detail = Some (u "Topic is required")
              /\ (1 <= default 3 (body_variants b) <= 10)%Z
              /\ exists t,
                   body_topic b = Some t /\ (3 <= List.length t)%nat
                   /\ Forall (fun c => is_space c = true) t))
  end.
Proof.
  intros _. destruct (parse_request b) as [payload|] eqn:Hparse.
  - destruct (parse_request_inv b payload Hparse)
      as (Htopic & Hlen & Hrange & _ & _ & _ & _ & _ & Hvariants).
    destruct (decide (strip (req_topic payload) = [])) as [Hempty|Hfull].
    + rewrite (post_generate_empty_topic env b payload r Hparse Hempty).
      split; [reflexivity|]. right. split; [reflexivity|]. split; [reflexivity|].
      split; [by rewrite <- Hvariants|].
      exists (req_topic payload). split; [exact Htopic|]. split; [exact Hlen|].
      by apply strip_nil_iff.
    + rewrite (post_generate_accepted env b payload r Hparse Hfull).
      cbn [resp_variants]. unfold generated_variants.
      rewrite length_map, length_seq.
      split; [rewrite <- Hvariants; lia|]. split; [lia|]. split; [reflexivity|].
      exists (req_topic payload). split; [exact Htopic|]. split; [exact Hlen|].
      by rewrite <- strip_nil_iff.
  - rewrite (post_generate_invalid env b r Hparse).
    split; [reflexivity|]. left. split; [reflexivity|]. split; [reflexivity|].
    by apply parse_request_refuses.
Qed.

Lemma post_generate_status_witness :
  exists t,
    body_topic (body_of_topic (u "    ")) = Some t
    /\ (3 <= List.length t)%nat
    /\ Forall (fun c => is_space c = true) t.
Proof.
  assert (well_formed (body_of_topic (u "    ")) = true) as Hformed
    by (vm_compute; reflexivity).
  pose proof (post_generate_status (U := ascii_data) env_db_down
                (body_of_topic (u "    ")) rng_zero Hformed) as Hstatus.
  destruct (post_generate (U := ascii_data) env_db_down (body_of_topic (u "    "))
              rng_zero) as [[resp|code detail] r'] eqn:Hrun.
  - vm_compute in Hrun. discriminate Hrun.
  - destruct Hstatus as (_ & [(Hcode & _)|(_ & _ & _ & Hblank)]).
    + vm_compute in Hrun. injection Hrun as <- _ _. discriminate Hcode.
    + exact Hblank.
Defined.

(** X12. On a 200 response, [saved_id] is what [create_document] answered
    for the collection ["caption"] and the record of this generation: the
    identifier when it returned one, null when it raised. The record holds
    the trimmed topic, the tone, platform and length as sent (not
    lower-cased), the variants of the response and [favorite = False]. *)
Theorem saved_id_from_create_document {U : UnicodeData}
    (env : Environment) (b : RequestBody) (payload : GenerateRequest)
    (r r' : Rng) (resp : GenerateResponse) :
  parse_request b = Some payload ->
  post_generate env b r = (Http200 resp, r') ->
  let doc :=
    {| doc_topic := strip (req_topic payload);
       doc_tone := req_tone payload;
       doc_platform := req_platform payload;
       doc_length := req_length payload;
       doc_include_emojis := req_include_emojis payload;
       doc_include_hashtags := req_include_hashtags payload;
       doc_variants := resp_variants resp;
       doc_favorite := false;
       doc_generated_at := utcnow env |} in
  saved_id resp
  = match create_document env (u "caption") doc with
    | Return id => Some id
    | Raise _ => None
    end.
Proof.
  intros Hparse Hrun.
  destruct (decide (strip (req_topic payload) = [])) as [Hempty|Hfull].
  { rewrite (post_generate_empty_topic env b payload r Hparse Hempty) in Hrun.
    discriminate Hrun. }
  rewrite (post_generate_accepted env b payload r Hparse Hfull) in Hrun.
  injection Hrun as <- _. reflexivity.
Qed.

Lemma saved_id_from_create_document_witness :
  exists resp,
    fst (post_generate (U := ascii_data) env_db_ok (body_of_topic (u "Fresh Bread"))
           rng_zero) = Http200 resp
    /\ saved_id resp = Some (u "65f0c1").
Proof.
  destruct (post_generate (U := ascii_data) env_db_ok (body_of_topic (u "Fresh Bread"))
              rng_zero) as [response r'] eqn:Hrun.
  destruct response as [resp|code detail];
    [|vm_compute in Hrun; discriminate Hrun].
  exists resp. split; [reflexivity|].
  apply (saved_id_from_create_document (U := ascii_data) env_db_ok
           (body_of_topic (u "Fresh Bread"))
           {| req_topic := u "Fresh Bread"; req_tone := u "friendly";
              req_platform := u "instagram"; req_length := u "medium";
              req_include_emojis := true; req_include_hashtags := true;
              req_variants := 3 |} rng_zero r' resp).
  - vm_compute. reflexivity.
  - exact Hrun.
Defined.

(** ** Properties of the listing, favourite and diagnostic endpoints *)

Section Listing.
Context {V : Type} (http_exception_str : Z -> pystr -> pystr) (str_other : V -> pystr).

Lemma stringify_id_lookup (it : gmap pystr (value V)) (k : pystr) :
  stringify_id str_other it !! k
  = if decide (k = u "_id") then (fun x => VStr (py_str str_other x)) <$> it !! k
    else it !! k.
Proof.
  unfold stringify_id. destruct (decide (k = u "_id")) as [->|Hne].
  - destruct (it !! u "_id") as [x|] eqn:Hid.
    + by rewrite lookup_insert_eq.
    + by rewrite Hid.
  - destruct (it !! u "_id") as [x|]; [|reflexivity].
    rewrite lookup_insert_ne; [reflexivity|]. intros Heq. by apply Hne.
Qed.

(** X13. When [get_documents] returns, [list_captions] answers 200 with as
    many items in the same order; each item has the keys of its document,
    the value of ["_id"], where there is one, replaced by its string form,
    and every other value untouched. *)
Theorem list_captions_items
    (get_documents :
       pystr -> gmap pystr (value V) -> Z -> result (list (gmap pystr (value V))))
    (limit : Z) (items : list (gmap pystr (value V))) :
  get_documents (u "caption") ∅ limit = Return items ->
  exists out,
    list_captions http_exception_str str_other get_documents limit = Reply200 out
    /\ List.length out = List.length items
    /\ forall i it,
         items !! i = Some it ->
         exists it',
           out !! i = Some it'
           /\ dom it' = dom it
           /\ (forall k, k ≠ u "_id" -> it' !! k = it !! k)
           /\ (forall x, it !! u "_id" = Some x ->
                 it' !! u "_id" = Some (VStr (py_str str_other x))).
Proof.
  intros Hget. exists (map (stringify_id str_other) items).
  unfold list_captions. rewrite Hget. split; [reflexivity|].
  split; [apply length_map|].
  intros i it Hit. exists (stringify_id str_other it).
  split; [by rewrite list_lookup_fmap, Hit|]. split; [|split].
  - apply set_eq. intros k. rewrite !elem_of_dom, stringify_id_lookup.
    destruct (decide (k = u "_id")); [|reflexivity]. by rewrite fmap_is_Some.
  - intros k Hk. rewrite stringify_id_lookup.
    destruct (decide (k = u "_id")) as [Heq|_]; [by destruct (Hk Heq)|reflexivity].
  - intros x Hx. rewrite stringify_id_lookup.
    destruct (decide (u "_id" = u "_id")) as [_|Hne]; [|by destruct Hne].
    by rewrite Hx.
Qed.

(** X14. Rendering the identifiers is idempotent: documents that went
    through [list_captions] once come out unchanged when listed again, and
    so does a document that the list holds twice. *)
Theorem stringify_id_idempotent (items : list (gmap pystr (value V))) :
  map (stringify_id str_other) (map (stringify_id str_other) items)
  = map (stringify_id str_other) items.
Proof.
  rewrite map_map. apply map_ext. intros it. apply map_eq. intros k.
  rewrite !stringify_id_lookup.
  destruct (decide (k = u "_id")); [|reflexivity].
  by destruct (it !! k).
Qed.

End Listing.

Lemma list_captions_items_witness :
  exists out,
    list_captions (V := Z) (fun _ detail => detail) (fun _ => u "65f0c1")
      (fun _ _ _ => Return [ {[ u "_id" := VOther 7%Z ]} ]) 20
    = Reply200 out
    /\ List.length out = 1%nat.
Proof.
  destruct (list_captions_items (V := Z) (fun _ detail => detail) (fun _ => u "65f0c1")
              (fun _ _ _ => Return [ {[ u "_id" := VOther 7%Z ]} ]) 20
              [ {[ u "_id" := VOther 7%Z ]} ] eq_refl)
    as (out & Hrun & Hlen & _).
  exists out. split; [exact Hrun | exact Hlen].
Defined.

Section Favourite.
Context {Store Oid : Type} (http_exception_str : Z -> pystr -> pystr).

(** X15. [favorite_caption] answers [ok: true] whenever the database is
    there, the identifier is well formed and [update_one] returns, however
    many documents were matched, none included. Every failure is answered
    with status 500, the missing database as well, whose detail is the
    rendering of the [HTTPException] raised in the body; a missing database
    or a malformed identifier leaves the store untouched. *)
Theorem favorite_caption_outcome
    (db : option (Database Store Oid)) (object_id : pystr -> result Oid)
    (now : Z) (doc_id : pystr) (index : Z) (σ : Store) :
  (forall d oid matched σ',
     db = Some d -> object_id doc_id = Return oid ->
     update_one d (u "caption") oid
       {| set_favorite := true; set_favorite_index := index; set_updated_at := now |} σ
     = (Return matched, σ') ->
     favorite_caption http_exception_str db object_id now doc_id index σ
     = (Reply200 true, σ'))
  /\ (forall code detail σ',
        favorite_caption http_exception_str db object_id now doc_id index σ
        = (ReplyError code detail, σ') ->
        code = 500%Z)
  /\ (db = None ->
      favorite_caption http_exception_str db object_id now doc_id index σ
      = (ReplyError 500 (http_exception_str 500 (u "Database not available")), σ))
  /\ (forall e, object_id doc_id = Raise e ->
      snd (favorite_caption http_exception_str db object_id now doc_id index σ) = σ).
Proof.
  unfold favorite_caption, favorite_body. split; [|split; [|split]].
  - intros d oid matched σ' -> Hoid Hupdate. by rewrite Hoid, Hupdate.
  - intros code detail σ'. destruct db as [d|]; [|by intros [= <- _ _]].
    destruct (object_id doc_id) as [oid|e]; [|by intros [= <- _ _]].
    destruct (update_one d (u "caption") oid _ σ) as [[matched|e] σ''];
      [discriminate | by intros [= <- _ _]].
  - intros ->. reflexivity.
  - intros e Hoid. destruct db as [d|]; [|reflexivity]. by rewrite Hoid.
Qed.

End Favourite.

Lemma favorite_caption_outcome_witness :
  favorite_caption (Store := nat) (Oid := pystr) (fun _ detail => detail)
    (Some {| db_name := None;
             list_collection_names := fun _ => Return [];
             update_one := fun _ _ _ σ => (Return 0%Z, S σ) |})
    (fun s => Return s) 0 (u "65f0c1") 2 0%nat
  = (Reply200 true, 1%nat).
Proof.
  apply (proj1 (favorite_caption_outcome (fun _ detail => detail)
                  (Some {| db_name := None;
                           list_collection_names := fun _ => Return [];
                           update_one := fun _ _ _ σ => (Return 0%Z, S σ) |})
                  (fun s => Return s) 0 (u "65f0c1") 2 0%nat)
           _ (u "65f0c1") 0%Z 1%nat eq_refl eq_refl eq_refl).
Defined.

Section Diagnosis.
Context {Store Oid : Type} (http_exception_str : Z -> pystr -> pystr).

(** X16. Whatever the state of the database, [test_database] reports the
    backend as running, and its [database_url] and [database_name] tell
    only whether the environment variables [DATABASE_URL] and
    [DATABASE_NAME] are set to a non-empty string: the values written
    while probing the database, the database's own name among them, are
    always overwritten. A variable set to the empty string counts as not
    set. *)
Theorem test_database_env_fields
    (db : option (Database Store Oid)) (getenv : pystr -> option pystr) (σ : Store) :
  let response := test_database http_exception_str db getenv σ in
  backend response = u "✅ Running"
  /\ database_url response
     = Some (if env_truthy (getenv (u "DATABASE_URL")) then u "✅ Set" else u "❌ Not Set")
  /\ database_name response
     = Some (if env_truthy (getenv (u "DATABASE_NAME")) then u "✅ Set" else u "❌ Not Set")
  /\ (getenv (u "DATABASE_URL") = Some [] -> database_url response = Some (u "❌ Not Set"))
  /\ (getenv (u "DATABASE_URL") = None -> database_url response = Some (u "❌ Not Set")).
Proof.
  cbv zeta. unfold test_database.
  destruct db as [d|]; [destruct (list_collection_names d σ) as [names|e]|];
    cbn [backend database_url database_name with_database with_database_url
         with_database_name with_connection_status with_collections];
    (split; [reflexivity|]; split; [reflexivity|]; split; [reflexivity|];
     split; intros ->; reflexivity).
Qed.

(** X17. The connection part of the diagnosis. Without a database object
    the status is "Not Connected" and no collection is listed. With one the
    status is "Connected"; when listing returns, the first ten collection
    names are reported, and when it raises, none is reported and the message
    is cut to fifty characters. At most ten names are ever reported, and the
    initial text "❌ Not Available" never reaches the caller. *)
Theorem test_database_connection
    (db : option (Database Store Oid)) (getenv : pystr -> option pystr) (σ : Store) :
  let response := test_database http_exception_str db getenv σ in
  (List.length (collections response) <= 10)%nat
  /\ database response ≠ u "❌ Not Available"
  /\ (db = None ->
      connection_status response = u "Not Connected"
      /\ collections response = []
      /\ database response = u "⚠️  Available but not initialized")
  /\ (forall d names,
        db = Some d -> list_collection_names d σ = Return names ->
        connection_status response = u "Connected"
        /\ collections response = take 10 names
        /\ database response = u "✅ Connected & Working")
  /\ (forall d e,
        db = Some d -> list_collection_names d σ = Raise e ->
        connection_status response = u "Connected"
        /\ collections response = []
        /\ database response
           = u "⚠️  Connected but Error: " ++ take 50 (exn_str http_exception_str e)).
Proof.
  cbv zeta. unfold test_database.
  destruct db as [d|]; [destruct (list_collection_names d σ) as [names|e] eqn:Hlist|];
    cbn [database connection_status collections with_database with_database_url
         with_database_name with_connection_status with_collections].
  - split; [rewrite length_take; lia|]. split; [literal_neq|].
    split; [discriminate|]. split.
    + intros d' names' [= <-]. rewrite Hlist. intros [= <-]. done.
    + intros d' e' [= <-]. rewrite Hlist. discriminate.
  - split; [simpl; lia|]. split.
    { intros Heq. apply (f_equal head) in Heq. vm_compute in Heq. discriminate Heq. }
    split; [discriminate|]. split.
    + intros d' names' [= <-]. rewrite Hlist. discriminate.
    + intros d' e' [= <-]. rewrite Hlist. intros [= <-]. done.
  - split; [simpl; lia|]. split; [literal_neq|].
    split; [done|]. split; discriminate.
Qed.

End Diagnosis.

Lemma test_database_connection_witness :
  collections
    (test_database (Store := nat) (Oid := pystr) (fun _ detail => detail)
       (Some {| db_name := Some (u "captions");
                list_collection_names := fun _ => Return [u "caption"; u "user"];
                update_one := fun _ _ _ σ => (Return 0%Z, σ) |})
       (fun _ => None) 0%nat)
  = take 10 [u "caption"; u "user"].
Proof.
  destruct (test_database_connection (Store := nat) (Oid := pystr)
              (fun _ detail => detail)
              (Some {| db_name := Some (u "captions");
                       list_collection_names := fun _ => Return [u "caption"; u "user"];
                       update_one := fun _ _ _ σ => (Return 0%Z, σ) |})
              (fun _ => None) 0%nat)
    as (_ & _ & _ & Hlisted & _).
  destruct (Hlisted _ _ eq_refl eq_refl) as (_ & Hcollections & _).
  exact Hcollections.
Defined.

Lemma test_database_env_fields_witness :
  database_url
    (test_database (Store := nat) (Oid := pystr) (fun _ detail => detail) None
       (fun _ => Some []) 0%nat)
  = Some (u "❌ Not Set").
Proof.
  destruct (test_database_env_fields (Store := nat) (Oid := pystr)
              (fun _ detail => detail) None (fun _ => Some []) 0%nat)
    as (_ & _ & _ & Hempty & _).
  exact (Hempty eq_refl).
Defined.
